(** * Retrieval Context Engine of smart_document_search

    A shallow embedding of the three algorithmic parts of the repository:
    the chunker of [app/document_processor.py], the context optimiser of
    [app/memory/context_manager.py] and the search coordinator of
    [app/search/hybrid_search.py], with the upload route of [app/main.py]
    that drives the first and the last.

    Python integers are [Z], Python [str] is [string] (code points below
    256), lists are [list].  Exceptions are explicit: a function of the
    program returns an [outcome], external services answer with a [reply]. *)

From Stdlib Require Import ZArith QArith List String Ascii Bool Lia.
From Stdlib Require Import Numbers.DecimalString Init.Byte.
Import ListNotations.

Open Scope bool_scope.
Open Scope string_scope.
Open Scope Z_scope.

(** ** Python values, exceptions and string primitives *)

Module Py.

(** The exceptions that the modelled code can raise or receive. *)
Inductive exn : Type :=
| TypeError (msg : string)
| ValueError (msg : string)
| KeyError (key : string)
| IndexError (msg : string)
| ZeroDivisionError (msg : string)
| ServiceError (msg : string).

(** [str(e)] *)
Definition str_exn (e : exn) : string :=
  match e with
  | TypeError m | ValueError m | IndexError m
  | ZeroDivisionError m | ServiceError m => m
  | KeyError k => "'" ++ k ++ "'"
  end.

(** What a call of the program does: it returns, it raises, or the
    iteration budget given to a [while] loop is used up. *)
Inductive outcome (A : Type) : Type :=
| Return (a : A)
| Raise (e : exn)
| OutOfFuel.
Arguments Return {A} a.
Arguments Raise {A} e.
Arguments OutOfFuel {A}.

(** What an external service (embedding, index, language model, PDF
    reader) answers: a value or an exception. *)
Inductive reply (A : Type) : Type :=
| Ok (a : A)
| Fails (e : exn).
Arguments Ok {A} a.
Arguments Fails {A} e.

Definition call {A} (r : reply A) : outcome A :=
  match r with
  | Ok a => Return a
  | Fails e => Raise e
  end.

Definition bind {A B} (m : outcome A) (k : A -> outcome B) : outcome B :=
  match m with
  | Return a => k a
  | Raise e => Raise e
  | OutOfFuel => OutOfFuel
  end.

(** [try: m  except Exception as e: handler e] *)
Definition try_except {A} (m : outcome A) (handler : exn -> outcome A)
  : outcome A :=
  match m with
  | Raise e => handler e
  | other => other
  end.

(** [for x in l: ...] with a body that may raise, collecting results. *)
Fixpoint map_outcome {A B} (f : A -> outcome B) (l : list A)
  : outcome (list B) :=
  match l with
  | [] => Return []
  | x :: rest =>
      bind (f x) (fun y =>
      bind (map_outcome f rest) (fun ys => Return (y :: ys)))
  end.

(** Index normalisation of a slice bound: negative bounds count from the
    end, and every bound is clamped to [0, len]. *)
Definition slice_bound (len i : Z) : Z :=
  if i <? 0 then Z.max 0 (i + len) else Z.min i len.

Definition slice_bounds (len : Z) (lo hi : option Z) : Z * Z :=
  (match lo with Some i => slice_bound len i | None => 0 end,
   match hi with Some j => slice_bound len j | None => len end).

(** [l[lo:hi]] on lists *)
Definition slice {A} (l : list A) (lo hi : option Z) : list A :=
  let '(a, b) := slice_bounds (Z.of_nat (List.length l)) lo hi in
  firstn (Z.to_nat (b - a)) (skipn (Z.to_nat a) l).

(** [len(s)] *)
Definition len (s : string) : Z := Z.of_nat (String.length s).

(** [s[lo:hi]] on strings *)
Definition str_slice (s : string) (lo hi : option Z) : string :=
  let '(a, b) := slice_bounds (len s) lo hi in
  substring (Z.to_nat a) (Z.to_nat (b - a)) s.

(** Truthiness of a string and of an optional string. *)
Definition truthy (s : string) : bool :=
  match s with
  | EmptyString => false
  | String _ _ => true
  end.

Definition truthy_opt (o : option string) : bool :=
  match o with
  | Some s => truthy s
  | None => false
  end.

(** [o or ""] *)
Definition or_empty (o : option string) : string :=
  match o with
  | Some (String c r) => String c r
  | _ => ""
  end.

(** The characters [str.strip()] removes, among code points below 256:
    TAB LF VT FF CR, FS GS RS US, space, NEL and NBSP. *)
Definition is_space (c : ascii) : bool :=
  let n := nat_of_ascii c in
  ((9 <=? n) && (n <=? 13))%nat || ((28 <=? n) && (n <=? 32))%nat
  || (n =? 133)%nat || (n =? 160)%nat.

Fixpoint lstrip (s : string) : string :=
  match s with
  | EmptyString => EmptyString
  | String c r => if is_space c then lstrip r else s
  end.

Fixpoint rstrip (s : string) : string :=
  match s with
  | EmptyString => EmptyString
  | String c r =>
      match rstrip r with
      | EmptyString => if is_space c then EmptyString else String c EmptyString
      | String c' r' => String c (String c' r')
      end
  end.

(** [s.strip()] *)
Definition strip (s : string) : string := rstrip (lstrip s).

(** Some character of the string survives trimming. *)
Fixpoint visible (s : string) : bool :=
  match s with
  | EmptyString => false
  | String c r => negb (is_space c) || visible r
  end.

(** [s.rfind(sub)]: the highest index where [sub] starts, or -1. *)
Fixpoint rfind_from (sub s : string) (i last : Z) : Z :=
  let last' := if prefix sub s then i else last in
  match s with
  | EmptyString => last'
  | String _ r => rfind_from sub r (i + 1) last'
  end.

Definition rfind (s sub : string) : Z := rfind_from sub s 0 (-1).

(** [sub in s] *)
Fixpoint contains (sub s : string) : bool :=
  prefix sub s ||
  match s with
  | EmptyString => false
  | String _ r => contains sub r
  end.

(** [str(n)] for an integer *)
Definition str_int (n : Z) : string := NilZero.string_of_int (Z.to_int n).

(** [s.upper()] on ASCII letters *)
Definition upper_char (c : ascii) : ascii :=
  let n := nat_of_ascii c in
  if ((97 <=? n) && (n <=? 122))%nat then ascii_of_nat (n - 32) else c.

Fixpoint upper (s : string) : string :=
  match s with
  | EmptyString => EmptyString
  | String c r => String (upper_char c) (upper r)
  end.

(** [s * n] *)
Fixpoint repeat_str (s : string) (n : nat) : string :=
  match n with
  | O => EmptyString
  | S n' => s ++ repeat_str s n'
  end.

(** [s.lower()] on code points below 256: the letters A-Z and the
    accented capitals of Latin-1 move 32 places up. *)
Definition lower_char (c : ascii) : ascii :=
  let n := nat_of_ascii c in
  if ((65 <=? n) && (n <=? 90))%nat
     || ((192 <=? n) && (n <=? 214))%nat
     || ((216 <=? n) && (n <=? 222))%nat
  then ascii_of_nat (n + 32) else c.

Fixpoint lower (s : string) : string :=
  match s with
  | EmptyString => EmptyString
  | String c r => String (lower_char c) (lower r)
  end.

(** [s.split(sep)[-1]] for a separator of one character: what follows
    the last separator, with [field] the part read since the separator
    before. *)
Fixpoint last_field (sep : ascii) (s field : string) : string :=
  match s with
  | EmptyString => field
  | String c r =>
      if Ascii.eqb c sep then last_field sep r EmptyString
      else last_field sep r (field ++ String c EmptyString)
  end.

End Py.

Import Py.

Declare Scope py_scope.
Delimit Scope py_scope with py.
Notation "x <- m ;; k" := (bind m (fun x => k))
  (at level 100, m at next level, right associativity) : py_scope.
Open Scope py_scope.

(** ** app/document_processor.py *)

Module DocumentProcessor.

Record Metadata : Type := {
  filename_of : string;
  total_pages : option Z
}.

(** One formatted chunk, the dictionary the processors build. *)
Record Chunk : Type := {
  chunk_index : Z;
  content : string;
  page_number : option Z;
  metadata : Metadata
}.

(** An entry of [page_texts]. *)
Record PageText : Type := {
  pt_page_number : Z;
  pt_text : string
}.

(** [start <= chunks[-1]] compares an [int] with a [str]: Python 3 has
    no such ordering and raises. *)
Definition guard_error : exn :=
  TypeError "'<=' not supported between instances of 'int' and 'str'".

Definition int_le_str (start : Z) (chunk : string) : outcome bool :=
  Raise guard_error.

Definition delimiters : list string :=
  [". "; String "." (String "010" ""); "! "; String "!" (String "010" "");
   "? "; String "?" (String "010" "")].

Section Processor.

(** [self.chunk_size], [self.chunk_overlap] *)
Variables chunk_size chunk_overlap : Z.

(** [for delimiter in [...]: pos = search_text.rfind(delimiter) ...] *)
Fixpoint first_boundary (search_text : string) (search_start end_ : Z)
         (ds : list string) : Z :=
  match ds with
  | [] => end_
  | delimiter :: rest =>
      let pos := rfind search_text delimiter in
      if negb (pos =? -1) then search_start + pos + len delimiter
      else first_boundary search_text search_start end_ rest
  end.

Definition _find_sentence_boundary (text : string) (start end_ : Z) : Z :=
  let search_start := end_ - (chunk_size / 5) in
  let search_text := str_slice text (Some search_start) (Some end_) in
  first_boundary search_text search_start end_ delimiters.

(** [start <= chunks[-1] if chunks else False] *)
Definition guard (start : Z) (chunks : list string) : outcome bool :=
  match chunks with
  | [] => Return false
  | _ :: _ => int_le_str start (List.last chunks "")
  end.

(** One pass through the body of the [while] loop: the new [start] and
    the new [chunks]. *)
Definition loop_body (text : string) (start : Z) (chunks : list string)
  : outcome (Z * list string) :=
  let end_ := start + chunk_size in
  let end_ :=
    if end_ <? len text then
      let sentence_end := _find_sentence_boundary text start end_ in
      if sentence_end >? start then sentence_end else end_
    else end_ in
  let chunk := strip (str_slice text (Some start) (Some end_)) in
  let chunks := if truthy chunk then (chunks ++ [chunk])%list else chunks in
  let start := end_ - chunk_overlap in
  g <- guard start chunks ;;
  Return (if g : bool then end_ else start, chunks).

(** [while start < len(text): ...], at most [fuel] passes. *)
Fixpoint chunk_loop (fuel : nat) (text : string) (start : Z)
         (chunks : list string) : outcome (list string) :=
  if start <? len text then
    match fuel with
    | O => OutOfFuel
    | S fuel' =>
        st <- loop_body text start chunks ;;
        chunk_loop fuel' text (fst st) (snd st)
    end
  else Return chunks.

Definition _chunk_text (fuel : nat) (text : string)
  : outcome (list string) :=
  let text := strip text in
  if len text <=? chunk_size then Return [text]
  else chunk_loop fuel text 0 [].

(** [//] rounds towards minus infinity like [Z.div] and raises on a zero
    divisor. *)
Definition estimate_chunks (content_length : Z) : outcome Z :=
  if content_length <=? chunk_size then Return 1
  else
    let effective_chunk_size := chunk_size - chunk_overlap in
    if effective_chunk_size =? 0 then
      Raise (ZeroDivisionError "integer division or modulo by zero")
    else
      Return ((content_length + effective_chunk_size - 1)
              / effective_chunk_size).

Definition page_marker (n : Z) : string := "[Page " ++ str_int n ++ "]".

Fixpoint _estimate_page_number (chunk : string)
         (page_texts : list PageText) : option Z :=
  match page_texts with
  | [] => None
  | page_info :: rest =>
      if contains (page_marker (pt_page_number page_info)) chunk
      then Some (pt_page_number page_info)
      else _estimate_page_number chunk rest
  end.

(** [for i, chunk in enumerate(chunks): formatted_chunks.append(...)] *)
Fixpoint format_chunks (mk : Z -> string -> Chunk) (i : Z)
         (chunks : list string) : list Chunk :=
  match chunks with
  | [] => []
  | chunk :: rest => mk i chunk :: format_chunks mk (i + 1) rest
  end.

(** [content.decode('utf-8', errors='ignore')] *)
Variable decode : list byte -> string.

Definition process_text_file (fuel : nat) (content_bytes : list byte)
           (filename : string) : outcome (list Chunk) :=
  try_except
    (let text := decode content_bytes in
     chunks <- _chunk_text fuel text ;;
     Return (format_chunks
               (fun i chunk =>
                  {| chunk_index := i; content := chunk;
                     page_number := None;
                     metadata := {| filename_of := filename;
                                    total_pages := None |} |})
               0 chunks))
    (fun _ => Return []).

Definition process_markdown_file (fuel : nat) (content_bytes : list byte)
           (filename : string) : outcome (list Chunk) :=
  process_text_file fuel content_bytes filename.

(** [PDF_AVAILABLE] and [PdfReader]: the reader gives the pages, each
    page the answer of its [extract_text()]. *)
Variable PDF_AVAILABLE : bool.
Variable PdfReader : list byte -> reply (list (reply string)).

(** The page loop: a failing page and a page without text leave
    [full_text] and [page_texts] as they are. *)
Fixpoint extract_pages (pages : list (reply string)) (page_num : Z)
         (full_text : string) (page_texts : list PageText)
  : string * list PageText :=
  match pages with
  | [] => (full_text, page_texts)
  | page :: rest =>
      match page with
      | Ok page_text =>
          if truthy page_text then
            extract_pages rest (page_num + 1)
              (full_text ++ String "010" (String "010" "")
                 ++ page_marker page_num ++ String "010" page_text)
              (page_texts ++ [{| pt_page_number := page_num;
                                 pt_text := page_text |}])%list
          else extract_pages rest (page_num + 1) full_text page_texts
      | Fails _ => extract_pages rest (page_num + 1) full_text page_texts
      end
  end.

Definition process_pdf_file (fuel : nat) (content_bytes : list byte)
           (filename : string) : outcome (list Chunk) :=
  if negb PDF_AVAILABLE then
    Raise (ValueError
             "PDF processing not available. Install pypdf package.")
  else
    try_except
      (pages <- call (PdfReader content_bytes) ;;
       let '(full_text, page_texts) := extract_pages pages 1 "" [] in
       if negb (truthy (strip full_text)) then Return []
       else
         chunks <- _chunk_text fuel (strip full_text) ;;
         Return (format_chunks
                   (fun i chunk =>
                      {| chunk_index := i; content := chunk;
                         page_number :=
                           _estimate_page_number chunk page_texts;
                         metadata :=
                           {| filename_of := filename;
                              total_pages :=
                                Some (Z.of_nat (List.length pages)) |} |})
                   0 chunks))
      (fun e => Raise (ValueError
                         ("Failed to process PDF: " ++ str_exn e))).

End Processor.

End DocumentProcessor.


(** ** app/models.py *)

Module Models.

Inductive MessageRole : Type := USER | ASSISTANT | SYSTEM.

Definition role_value (r : MessageRole) : string :=
  match r with
  | USER => "user"
  | ASSISTANT => "assistant"
  | SYSTEM => "system"
  end.

Inductive SearchStrategy : Type := KEYWORD | SEMANTIC | HYBRID.

Definition strategy_value (s : SearchStrategy) : string :=
  match s with
  | KEYWORD => "keyword"
  | SEMANTIC => "semantic"
  | HYBRID => "hybrid"
  end.

Record Message : Type := {
  role : MessageRole;
  content : string;
  timestamp : Z;
  metadata : option (list (string * string))
}.

End Models.

(** ** app/memory/context_manager.py *)

Module ContextManager.

Import Models.

Definition newline : string := String "010" "".

Definition truncation_marker : string :=
  "..." ++ newline ++ "[Context truncated due to length]".

Section Manager.

(** [self.encoding.encode]: the tokenizer, a list of token ids per text,
    taken as total. *)
Variable encode : string -> list Z.

(** [self.max_tokens] and [self.compression_threshold], from the settings. *)
Variable max_tokens : Z.
Variable compression_threshold : Z.

(** The chat completion behind [_summarize_messages]: from the
    conversation text and the token limit to the summary, or a failure of
    anything inside the [try] block. *)
Variable chat_completions_create : string -> Z -> reply string.

(** [int(len(context) * (max_tokens / current_tokens) * 0.9)], computed in
    floating point by the source: from [len(context)], [max_tokens] and
    [current_tokens] to the cut position. *)
Variable float_truncate_at : Z -> Z -> Z -> Z.

Definition count_tokens (text : string) : Z :=
  Z.of_nat (List.length (encode text)).

Definition count_messages_tokens (messages : list Message) : Z :=
  fold_left
    (fun total message =>
       total + count_tokens (role_value (role message))
       + count_tokens (content message) + 4)
    messages 0.

Definition conversation_text (messages : list Message) : string :=
  String.concat newline
    (map (fun msg => upper (role_value (role msg)) ++ ": " ++ content msg)
         messages).

(** The [except] branch of [_summarize_messages]. *)
Definition fallback_summary (messages : list Message) : string :=
  "Earlier conversation covered: "
  ++ String.concat ", "
       (map (fun msg => str_slice (content msg) None (Some 50))
            (slice messages None (Some 3)))
  ++ "...".

Definition _summarize_messages (messages : list Message) (limit : Z)
  : string :=
  match chat_completions_create (conversation_text messages) limit with
  | Ok summary => summary
  | Fails _ => fallback_summary messages
  end.

Definition _compress_context (context : string) (limit : Z)
  : outcome string :=
  let current_tokens := count_tokens context in
  if current_tokens <=? limit then Return context
  else if current_tokens =? 0 then
    Raise (ZeroDivisionError "division by zero")
  else
    let truncate_at := float_truncate_at (len context) limit current_tokens in
    Return (str_slice context None (Some truncate_at) ++ truncation_marker).

(** [messages[-preserve_recent:] if len(messages) > preserve_recent
    else messages] *)
Definition recent_of (messages : list Message) (preserve_recent : Z)
  : list Message :=
  if Z.of_nat (List.length messages) >? preserve_recent
  then slice messages (Some (- preserve_recent)) None
  else messages.

(** [messages[:-preserve_recent] if len(messages) > preserve_recent
    else []] *)
Definition older_of (messages : list Message) (preserve_recent : Z)
  : list Message :=
  if Z.of_nat (List.length messages) >? preserve_recent
  then slice messages None (Some (- preserve_recent))
  else [].

(** [self.count_tokens(additional_context) if additional_context else 0] *)
Definition additional_tokens_of (additional_context : option string) : Z :=
  if truthy_opt additional_context
  then count_tokens (or_empty additional_context)
  else 0.

Definition available_tokens_of (messages : list Message)
           (additional_context : option string) (preserve_recent : Z) : Z :=
  max_tokens - count_messages_tokens (recent_of messages preserve_recent)
  - additional_tokens_of additional_context.

Definition is_nil {A} (l : list A) : bool :=
  match l with
  | [] => true
  | _ :: _ => false
  end.

(** The three-way choice in the middle of [optimize_context]:
    [(optimized_messages, context_summary, total_tokens)]. *)
Definition select_messages (messages : list Message)
           (additional_context : option string) (preserve_recent : Z)
  : list Message * string * Z :=
  let recent_messages := recent_of messages preserve_recent in
  let older_messages := older_of messages preserve_recent in
  let recent_tokens := count_messages_tokens recent_messages in
  let additional_tokens := additional_tokens_of additional_context in
  let available_tokens := max_tokens - recent_tokens - additional_tokens in
  if (available_tokens >? 0) && negb (is_nil older_messages) then
    let older_tokens := count_messages_tokens older_messages in
    if older_tokens <=? available_tokens then
      (messages, "", recent_tokens + older_tokens + additional_tokens)
    else
      let summary := _summarize_messages older_messages (available_tokens / 2) in
      (recent_messages,
       "Previous conversation summary: " ++ summary ++ newline ++ newline,
       recent_tokens + count_tokens summary + additional_tokens)
  else
    (recent_messages, "", recent_tokens + additional_tokens).

Definition optimize_context (messages : list Message)
           (additional_context : option string) (preserve_recent : Z)
  : outcome (list Message * string * Z) :=
  if is_nil messages then Return ([], or_empty additional_context, 0)
  else
    let '(optimized_messages, context_summary, total_tokens) :=
      select_messages messages additional_context preserve_recent in
    if (total_tokens >? max_tokens) && truthy_opt additional_context then
      compressed_context <-
        _compress_context (or_empty additional_context)
          (max_tokens - count_messages_tokens optimized_messages) ;;
      Return (optimized_messages,
              context_summary ++ or_empty (Some compressed_context),
              count_messages_tokens optimized_messages
              + count_tokens compressed_context)
    else
      Return (optimized_messages,
              context_summary ++ or_empty additional_context,
              total_tokens).

Definition should_compress (current_tokens : Z) : bool :=
  current_tokens >=? compression_threshold.

End Manager.

End ContextManager.

(** ** app/search/hybrid_search.py *)

Module HybridSearch.

Import Models.

(** Scores and vector components are passed through and never computed
    with; every finite float is a rational, so they are carried as [Q]. *)
Definition number : Type := Q.

(** The [vector_query] parameter,
    [embedding:([v1,...,vn], k:K)] or [embedding:([v1,...,vn], k:K, alpha:A)],
    kept as the values its format string interpolates. *)
Record VectorQuery : Type := {
  vq_field : string;
  vq_values : list number;
  vq_k : Z;
  vq_alpha : option number
}.

(** The [search_params] dictionary. *)
Record SearchParams : Type := {
  q : string;
  query_by : string;
  per_page : Z;
  include_fields : string;
  filter_by : option string;
  query_by_weights : option string;
  vector_query : option VectorQuery
}.

(** [hit['document']]: any key may be absent. *)
Record Document : Type := {
  doc_id : option string;
  doc_document_id : option string;
  doc_document_name : option string;
  doc_content : option string;
  doc_chunk_index : option Z;
  doc_page_number : option Z
}.

Record Hit : Type := {
  hit_document : option Document;
  hit_vector_distance : option number;
  hit_text_match : option number
}.

(** The answer of the index: [results.get('hits', [])]. *)
Record SearchResponse : Type := {
  hits : option (list Hit)
}.

(** One entry of [formatted_results]. *)
Record SearchResult : Type := {
  chunk_id : string;
  document_id : string;
  document_name : string;
  content : string;
  chunk_index : Z;
  page_number : option Z;
  relevance_score : number;
  text_match_score : number
}.

(** The outbound calls of one invocation, in the order they are made. *)
Inductive Call : Type :=
| EmbeddingsCreate (model input : string)
| DocumentsSearch (collection : string) (params : SearchParams).

Definition COLLECTION_NAME : string := "document_chunks".

(** [d[key]] and [d.get(key, default)] *)
Definition getitem {A} (key : string) (v : option A) : outcome A :=
  match v with
  | Some a => Return a
  | None => Raise (KeyError key)
  end.

Definition get_default {A} (v : option A) (default : A) : A :=
  match v with
  | Some a => a
  | None => default
  end.

Definition format_hit (hit : Hit) : outcome SearchResult :=
  doc <- getitem "document" (hit_document hit) ;;
  id <- getitem "id" (doc_id doc) ;;
  did <- getitem "document_id" (doc_document_id doc) ;;
  dname <- getitem "document_name" (doc_document_name doc) ;;
  text <- getitem "content" (doc_content doc) ;;
  Return {| chunk_id := id;
            document_id := did;
            document_name := dname;
            content := text;
            chunk_index := get_default (doc_chunk_index doc) 0;
            page_number := doc_page_number doc;
            relevance_score :=
              get_default (hit_vector_distance hit)
                          (get_default (hit_text_match hit) 0%Q);
            text_match_score := get_default (hit_text_match hit) 0%Q |}.

(** The parameters before the strategy is looked at. *)
Definition base_params (query : string) (max_results : Z)
           (document_filter : option string) : SearchParams :=
  {| q := query;
     query_by := "content";
     per_page := max_results;
     include_fields :=
       "id,document_id,document_name,content,chunk_index,page_number";
     filter_by :=
       if truthy_opt document_filter
       then Some ("document_id:=" ++ or_empty document_filter)
       else None;
     query_by_weights := None;
     vector_query := None |}.

(** [if strategy == KEYWORD: ... elif SEMANTIC: ... elif HYBRID: ...] *)
Definition configure (strategy : SearchStrategy) (p : SearchParams)
           (query_embedding : list number) (max_results : Z)
           (semantic_weight : number) : SearchParams :=
  match strategy with
  | KEYWORD =>
      {| q := q p; query_by := query_by p; per_page := per_page p;
         include_fields := include_fields p; filter_by := filter_by p;
         query_by_weights := Some "1";
         vector_query := vector_query p |}
  | SEMANTIC =>
      {| q := "*"; query_by := query_by p; per_page := per_page p;
         include_fields := include_fields p; filter_by := filter_by p;
         query_by_weights := query_by_weights p;
         vector_query :=
           Some {| vq_field := "embedding"; vq_values := query_embedding;
                   vq_k := max_results; vq_alpha := None |} |}
  | HYBRID =>
      {| q := q p; query_by := query_by p; per_page := per_page p;
         include_fields := include_fields p; filter_by := filter_by p;
         query_by_weights := query_by_weights p;
         vector_query :=
           Some {| vq_field := "embedding"; vq_values := query_embedding;
                   vq_k := max_results;
                   vq_alpha := Some semantic_weight |} |}
  end.

(** The document [index_document_chunk] sends to the index; the key
    [page_number] is present only for a chunk that has one. *)
Record IndexedDocument : Type := {
  idx_id : string;
  idx_document_id : string;
  idx_document_name : string;
  idx_content : string;
  idx_chunk_index : Z;
  idx_embedding : list number;
  idx_page_number : option Z
}.

(** The outbound calls of [index_document_chunk]. *)
Inductive IndexCall : Type :=
| IndexEmbeddingsCreate (model input : string)
| DocumentsUpsert (collection : string) (document : IndexedDocument).

Section Engine.

(** [settings.embedding_model] *)
Variable embedding_model : string.

(** [self.openai_client.embeddings.create(model=..., input=...)]: the
    embeddings of [response.data], in order. *)
Variable embeddings_create : string -> string -> reply (list (list number)).

(** [self.client.collections[name].documents.search(search_params)] *)
Variable documents_search : string -> SearchParams -> reply SearchResponse.

(** [embedding_response.data[0].embedding] *)
Definition first_embedding (data : list (list number))
  : outcome (list number) :=
  match data with
  | [] => Raise (IndexError "list index out of range")
  | e :: _ => Return e
  end.

(** The body of the [try] block, with the calls it made. *)
Definition hybrid_search_try (query : string) (strategy : SearchStrategy)
           (max_results : Z) (keyword_weight semantic_weight : number)
           (document_filter : option string)
  : list Call * outcome (list SearchResult) :=
  let embedded :=
    (embedding_response <- call (embeddings_create embedding_model query) ;;
     first_embedding embedding_response) in
  match embedded with
  | Return query_embedding =>
      let search_params :=
        configure strategy (base_params query max_results document_filter)
                  query_embedding max_results semantic_weight in
      ([EmbeddingsCreate embedding_model query;
        DocumentsSearch COLLECTION_NAME search_params],
       results <- call (documents_search COLLECTION_NAME search_params) ;;
       map_outcome format_hit (get_default (hits results) []))
  | Raise e => ([EmbeddingsCreate embedding_model query], Raise e)
  | OutOfFuel => ([EmbeddingsCreate embedding_model query], OutOfFuel)
  end.

(** [try: ... except Exception as e: logger.error(...); return []] *)
Definition hybrid_search (query : string) (strategy : SearchStrategy)
           (max_results : Z) (keyword_weight semantic_weight : number)
           (document_filter : option string)
  : list Call * outcome (list SearchResult) :=
  let '(calls, result) :=
    hybrid_search_try query strategy max_results keyword_weight
                      semantic_weight document_filter in
  (calls, try_except result (fun _ => Return [])).

(** [self.client.collections[name].documents.upsert(document)] *)
Variable documents_upsert : string -> IndexedDocument -> reply unit.

Definition index_document_chunk_try (chunk_id document_id document_name
           content : string) (chunk_index : Z) (page_number : option Z)
  : list IndexCall * outcome bool :=
  let embedded :=
    (embedding_response <- call (embeddings_create embedding_model content) ;;
     first_embedding embedding_response) in
  match embedded with
  | Return embedding =>
      let document :=
        {| idx_id := chunk_id;
           idx_document_id := document_id;
           idx_document_name := document_name;
           idx_content := content;
           idx_chunk_index := chunk_index;
           idx_embedding := embedding;
           idx_page_number := page_number |} in
      ([IndexEmbeddingsCreate embedding_model content;
        DocumentsUpsert COLLECTION_NAME document],
       _ <- call (documents_upsert COLLECTION_NAME document) ;;
       Return true)
  | Raise e => ([IndexEmbeddingsCreate embedding_model content], Raise e)
  | OutOfFuel => ([IndexEmbeddingsCreate embedding_model content], OutOfFuel)
  end.

(** [try: ... return True  except Exception: ... return False] *)
Definition index_document_chunk (chunk_id document_id document_name
           content : string) (chunk_index : Z) (page_number : option Z)
  : list IndexCall * outcome bool :=
  let '(calls, result) :=
    index_document_chunk_try chunk_id document_id document_name content
                             chunk_index page_number in
  (calls, try_except result (fun _ => Return false)).

(** [self.client.collections[name].documents.delete({'filter_by': ...})] *)
Variable documents_delete : string -> string -> reply unit.

Definition delete_document_chunks (document_id : string) : outcome bool :=
  try_except
    (_ <- call (documents_delete COLLECTION_NAME
                  ("document_id:=" ++ document_id)) ;;
     Return true)
    (fun _ => Return false).

End Engine.

(** The module-level singleton: [_search_engine] is the state, the
    constructor [HybridSearchEngine()] answers with an engine or raises;
    [attempt] counts the constructions tried so far. *)
Section Singleton.

Variable Engine : Type.
Variable construct : nat -> reply Engine.

Definition get_search_engine (attempt : nat) (_search_engine : option Engine)
  : outcome Engine * (nat * option Engine) :=
  match _search_engine with
  | None =>
      match construct attempt with
      | Ok engine => (Return engine, (S attempt, Some engine))
      | Fails e => (Raise e, (S attempt, None))
      end
  | Some engine => (Return engine, (attempt, Some engine))
  end.

(** A sequence of [n] calls, from the state left by the one before: the
    answers, and the final state. *)
Fixpoint get_search_engine_times (n : nat) (attempt : nat)
         (_search_engine : option Engine)
  : list (outcome Engine) * (nat * option Engine) :=
  match n with
  | O => ([], (attempt, _search_engine))
  | S n' =>
      let '(answer, (attempt', state')) :=
        get_search_engine attempt _search_engine in
      let '(answers, final) :=
        get_search_engine_times n' attempt' state' in
      (answer :: answers, final)
  end.

End Singleton.

End HybridSearch.


(** ** Concrete configurations and inputs

    The settings of [app/config.py] and the inputs at which the
    properties below are evaluated. *)

Module Scenarios.

Import Models.

(** [chunk_size = 500], [chunk_overlap = 50], [max_context_tokens = 4000] *)
Definition default_chunk_size : Z := 500.
Definition default_chunk_overlap : Z := 50.
Definition default_max_tokens : Z := 4000.
Definition default_compression_threshold : Z := 3000.
Definition default_embedding_model : string := "text-embedding-3-small".

(** 501 letters: one character more than a window. *)
Definition long_word : string := repeat_str "a" 501.

(** Twelve sentences of 100 characters, each ended by a period and a
    space: 1,200 ASCII characters. *)
Definition sentence : string := repeat_str "a" 98 ++ ". ".
Definition twelve_sentences : string := repeat_str sentence 12.

(** A tokenizer that gives every character its own token. *)
Definition char_encode (s : string) : list Z :=
  map (fun c => Z.of_nat (nat_of_ascii c)) (list_ascii_of_string s).

(** A language model that is down, and one that answers. *)
Definition llm_down (text : string) (limit : Z) : reply string :=
  Fails (ServiceError "connection refused").
Definition llm_fixed (text : string) (limit : Z) : reply string :=
  Ok "They greeted each other.".

(** The cut position computed exactly instead of in floating point. *)
Definition exact_truncate_at (length limit current : Z) : Z :=
  (length * limit * 9) / (current * 10).

Definition msg (r : MessageRole) (text : string) (t : Z) : Message :=
  {| role := r; content := text; timestamp := t; metadata := None |}.

(** Four short messages. *)
Definition short_talk : list Message :=
  [msg USER "hi" 1; msg ASSISTANT "yo" 2; msg USER "ok" 3;
   msg ASSISTANT "no" 4].

(** One short message followed by three long ones. *)
Definition long_talk : list Message :=
  [msg USER "hi" 1; msg USER (repeat_str "a" 1400) 2;
   msg USER (repeat_str "b" 1400) 3; msg USER (repeat_str "c" 1400) 4].

(** Search results as additional context. *)
Definition big_context : string := repeat_str "x" 3955.
Definition small_context : string := "Relevant information from documents:".

(** A PDF of three pages: text, an extraction failure, no text. *)
Definition three_pages : list (reply string) :=
  [Ok "Hello."; Fails (ValueError "bad page"); Ok ""].
Definition three_pages_skipped : list (reply string) :=
  [Ok "Hello."; Ok ""; Ok ""].
Definition blank_pages : list (reply string) :=
  [Fails (ValueError "bad page"); Ok ""].

(** Pages that give nothing, and a page that gives text. *)
Definition no_text (page : reply string) : Prop :=
  match page with
  | Ok page_text => page_text = ""
  | Fails _ => True
  end.

Definition has_text (page : reply string) : Prop :=
  match page with
  | Ok page_text => page_text <> ""
  | Fails _ => False
  end.

(** An embedding service that answers, and one that is down. *)
Definition embed_ok (model input : string) : reply (list (list Q)) :=
  Ok [[1 # 10; 2 # 10; 3 # 10]].
Definition embed_down (model input : string) : reply (list (list Q)) :=
  Fails (ServiceError "embedding service unavailable").

Definition doc_a : HybridSearch.Document :=
  {| HybridSearch.doc_id := Some "c1";
     HybridSearch.doc_document_id := Some "d1";
     HybridSearch.doc_document_name := Some "a.txt";
     HybridSearch.doc_content := Some "Transformers use attention.";
     HybridSearch.doc_chunk_index := Some 0;
     HybridSearch.doc_page_number := None |}.

Definition doc_b : HybridSearch.Document :=
  {| HybridSearch.doc_id := Some "c7";
     HybridSearch.doc_document_id := Some "d2";
     HybridSearch.doc_document_name := Some "b.pdf";
     HybridSearch.doc_content := Some "Power transformers step voltage.";
     HybridSearch.doc_chunk_index := Some 3;
     HybridSearch.doc_page_number := Some 2 |}.

(** Two hits of a vector query, the nearer first. *)
Definition vector_hits : list HybridSearch.Hit :=
  [{| HybridSearch.hit_document := Some doc_a;
      HybridSearch.hit_vector_distance := Some (1 # 10);
      HybridSearch.hit_text_match := None |};
   {| HybridSearch.hit_document := Some doc_b;
      HybridSearch.hit_vector_distance := Some (1 # 2);
      HybridSearch.hit_text_match := None |}].

(** Two hits of a lexical query, the better match first. *)
Definition lexical_hits : list HybridSearch.Hit :=
  [{| HybridSearch.hit_document := Some doc_a;
      HybridSearch.hit_vector_distance := None;
      HybridSearch.hit_text_match := Some (9 # 1) |};
   {| HybridSearch.hit_document := Some doc_b;
      HybridSearch.hit_vector_distance := None;
      HybridSearch.hit_text_match := Some (4 # 1) |}].

(** An index that answers a vector query with [vector_hits] and any
    other query with [lexical_hits], and one that is down. *)
Definition index_ok (collection : string) (p : HybridSearch.SearchParams)
  : reply HybridSearch.SearchResponse :=
  match HybridSearch.vector_query p with
  | Some _ => Ok {| HybridSearch.hits := Some vector_hits |}
  | None => Ok {| HybridSearch.hits := Some lexical_hits |}
  end.
Definition index_down (collection : string) (p : HybridSearch.SearchParams)
  : reply HybridSearch.SearchResponse :=
  Fails (ServiceError "index unavailable").

(** An index that answers every query with [vector_hits], distances
    included. *)
Definition index_with_distances (collection : string)
           (p : HybridSearch.SearchParams)
  : reply HybridSearch.SearchResponse :=
  Ok {| HybridSearch.hits := Some vector_hits |}.

(** A call that was made and answered with an exception. *)
Definition failed_call
           (embeddings_create : string -> string -> reply (list (list Q)))
           (documents_search : string -> HybridSearch.SearchParams
                               -> reply HybridSearch.SearchResponse)
           (c : HybridSearch.Call) : Prop :=
  match c with
  | HybridSearch.EmbeddingsCreate model input =>
      exists e, embeddings_create model input = Fails e
  | HybridSearch.DocumentsSearch collection p =>
      exists e, documents_search collection p = Fails e
  end.

(** The scores of a result as [format_hit] takes them from its hit. *)
Definition scored_from (h : HybridSearch.Hit) (r : HybridSearch.SearchResult)
  : Prop :=
  HybridSearch.relevance_score r
  = HybridSearch.get_default (HybridSearch.hit_vector_distance h)
      (HybridSearch.get_default (HybridSearch.hit_text_match h) 0%Q)
  /\ HybridSearch.text_match_score r
     = HybridSearch.get_default (HybridSearch.hit_text_match h) 0%Q.

End Scenarios.

(** ** app/main.py: the upload route *)

Module Main.

Import DocumentProcessor.

Record DocumentUploadResponse : Type := {
  document_id : string;
  filename : string;
  chunks_created : Z;
  message : string
}.

(** What the route does with the database session, in order; a call
    that raised is listed too. *)
Inductive DbCall : Type :=
| DbAddDocument (filename content_type : string) (size_bytes : Z)
| DbAddChunk (document_id : string) (chunk_index : Z) (content : string)
             (page_number : option Z) (extra_data : Metadata)
| DbFlush
| DbSetChunkCount (chunk_count : Z)
| DbCommit
| DbRollback.

(** How a request ends: a response, an [HTTPException], an exception
    that the route does not handle (raised by the rollback), or no end
    at all. *)
Inductive answer (A : Type) : Type :=
| Response (a : A)
| HTTPException (status_code : Z) (detail : string)
| Unhandled (e : exn)
| Hangs.
Arguments Response {A} a.
Arguments HTTPException {A} status_code detail.
Arguments Unhandled {A} e.
Arguments Hangs {A}.

(** Inside the [try] block: a value, an [HTTPException], another
    exception, or a loop still running. *)
Inductive step (A : Type) : Type :=
| Done (a : A)
| Http (status_code : Z) (detail : string)
| Exc (e : exn)
| Stuck.
Arguments Done {A} a.
Arguments Http {A} status_code detail.
Arguments Exc {A} e.
Arguments Stuck {A}.

(** A computation of the route: from the database calls made so far to
    the calls made after it and its [step]. *)
Definition route (A : Type) : Type := list DbCall -> list DbCall * step A.

Definition ret {A} (a : A) : route A := fun calls => (calls, Done a).

Definition then_ {A B} (m : route A) (k : A -> route B) : route B :=
  fun calls =>
    match m calls with
    | (calls', Done a) => k a calls'
    | (calls', Http s d) => (calls', Http s d)
    | (calls', Exc e) => (calls', Exc e)
    | (calls', Stuck) => (calls', Stuck)
    end.

Definition raise_http {A} (status_code : Z) (detail : string) : route A :=
  fun calls => (calls, Http status_code detail).

Definition lift {A} (o : outcome A) : route A :=
  fun calls =>
    match o with
    | Return a => (calls, Done a)
    | Raise e => (calls, Exc e)
    | OutOfFuel => (calls, Stuck)
    end.

(** A call on the session: it is recorded, and it returns or raises as
    the database decides from the calls before it. *)
Definition db (c : DbCall) (database : list DbCall -> DbCall -> reply unit)
  : route unit :=
  fun calls =>
    ((calls ++ [c])%list,
     match database calls c with
     | Ok _ => Done tt
     | Fails e => Exc e
     end).

Definition allowed_extensions : list string :=
  [".txt"; ".md"; ".text"; ".markdown"; ".pdf"].

(** ['.' + file.filename.split('.')[-1].lower()] *)
Definition file_ext (name : string) : string :=
  "." ++ lower (last_field "." name "").

(** [x in l] for strings *)
Definition mem (x : string) (l : list string) : bool :=
  existsb (String.eqb x) l.

Section Upload.

(** [settings.chunk_size], [settings.chunk_overlap] and the collaborators
    of the document processor. *)
Variables chunk_size chunk_overlap : Z.
Variable decode : list byte -> string.
Variable PDF_AVAILABLE : bool.
Variable PdfReader : list byte -> reply (list (reply string)).

(** The uploaded file: [file.filename], [file.content_type] and the
    answer of [await file.read()]. *)
Variable file_name : string.
Variable file_content_type : option string.
Variable file_read : reply (list byte).

(** The database session, and the identifiers it gives to the document
    and to the chunk of each index when they are flushed. *)
Variable database : list DbCall -> DbCall -> reply unit.
Variable new_document_id : string.
Variable new_chunk_id : Z -> string.

(** [get_search_engine()] and the services behind
    [index_document_chunk]. *)
Variable search_engine : reply unit.
Variable embedding_model : string.
Variable embeddings_create
  : string -> string -> reply (list (list HybridSearch.number)).
Variable documents_upsert
  : string -> HybridSearch.IndexedDocument -> reply unit.

(** The loop over the chunks: each is added and flushed, then indexed;
    [indexed_count] counts the chunks the index took. *)
Fixpoint index_chunks (chunks : list Chunk) (indexed_count : Z)
  : route Z :=
  match chunks with
  | [] => ret indexed_count
  | chunk_data :: rest =>
      then_ (db (DbAddChunk new_document_id (chunk_index chunk_data)
                   (content chunk_data) (page_number chunk_data)
                   (metadata chunk_data))
                database) (fun _ =>
      then_ (db DbFlush database) (fun _ =>
      then_ (lift (snd (HybridSearch.index_document_chunk embedding_model
                          embeddings_create documents_upsert
                          (new_chunk_id (chunk_index chunk_data))
                          new_document_id file_name (content chunk_data)
                          (chunk_index chunk_data)
                          (page_number chunk_data)))) (fun success =>
      index_chunks rest
        (if success : bool then indexed_count + 1 else indexed_count))))
  end.

(** The body of the [try] block. *)
Definition upload_document_try (fuel : nat)
  : route DocumentUploadResponse :=
  let ext := file_ext file_name in
  if negb (mem ext allowed_extensions) then
    raise_http 400
      ("Unsupported file type. Allowed: "
       ++ String.concat ", " allowed_extensions)
  else
    then_ (lift (call file_read)) (fun content_bytes =>
    then_ (db (DbAddDocument file_name
                 (if truthy_opt file_content_type
                  then or_empty file_content_type else "text/plain")
                 (Z.of_nat (List.length content_bytes)))
              database) (fun _ =>
    then_ (db DbFlush database) (fun _ =>
    then_ (lift
             (if String.eqb ext ".pdf" then
                process_pdf_file chunk_size chunk_overlap PDF_AVAILABLE
                  PdfReader fuel content_bytes file_name
              else if mem ext [".md"; ".markdown"] then
                process_markdown_file chunk_size chunk_overlap decode fuel
                  content_bytes file_name
              else
                process_text_file chunk_size chunk_overlap decode fuel
                  content_bytes file_name)) (fun chunks =>
    match chunks with
    | [] => raise_http 400 "Failed to process document"
    | _ :: _ =>
        then_ (lift (call search_engine)) (fun _ =>
        then_ (index_chunks chunks 0) (fun indexed_count =>
        then_ (db (DbSetChunkCount (Z.of_nat (List.length chunks)))
                  (fun _ _ => Ok tt)) (fun _ =>
        then_ (db DbCommit database) (fun _ =>
        ret {| document_id := new_document_id;
               filename := file_name;
               chunks_created := indexed_count;
               message :=
                 "Document uploaded and processed into "
                 ++ str_int indexed_count ++ " chunks" |}))))
    end)))).

(** [except HTTPException: raise] and
    [except Exception as e: db.rollback(); raise HTTPException(500, ...)] *)
Definition upload_document (fuel : nat)
  : list DbCall * answer DocumentUploadResponse :=
  match upload_document_try fuel [] with
  | (calls, Done r) => (calls, Response r)
  | (calls, Http s d) => (calls, HTTPException s d)
  | (calls, Exc e) =>
      ((calls ++ [DbRollback])%list,
       match database calls DbRollback with
       | Ok _ => HTTPException 500 ("Upload failed: " ++ str_exn e)
       | Fails e' => Unhandled e'
       end)
  | (calls, Stuck) => (calls, Hangs)
  end.

End Upload.

(** The calls that neither commit nor roll back. *)
Definition pending (c : DbCall) : bool :=
  match c with
  | DbCommit | DbRollback => false
  | _ => true
  end.

(** A database that takes every call. *)
Definition database_ok (calls : list DbCall) (c : DbCall) : reply unit :=
  Ok tt.

End Main.

(** ** Shapes of search hits and results *)

Module Shapes.

Import HybridSearch.

Definition is_some {A} (o : option A) : bool :=
  match o with
  | Some _ => true
  | None => false
  end.

(** A hit that has its document, and in it the four keys that
    [hybrid_search] reads with [doc[...]]. *)
Definition complete_hit (h : Hit) : bool :=
  match hit_document h with
  | Some doc =>
      is_some (doc_id doc) && is_some (doc_document_id doc)
      && is_some (doc_document_name doc) && is_some (doc_content doc)
  | None => false
  end.

(** A result that carries the fields of the document of a hit. *)
Definition formatted_from (h : Hit) (r : SearchResult) : Prop :=
  exists doc,
    hit_document h = Some doc
    /\ doc_id doc = Some (chunk_id r)
    /\ doc_document_id doc = Some (document_id r)
    /\ doc_document_name doc = Some (document_name r)
    /\ doc_content doc = Some (content r)
    /\ chunk_index r = get_default (doc_chunk_index doc) 0
    /\ page_number r = doc_page_number doc.

(** A hit without the key [content] in its document. *)
Definition hit_without_content : Hit :=
  {| hit_document :=
       Some {| doc_id := Some "c9"; doc_document_id := Some "d3";
               doc_document_name := Some "c.txt"; doc_content := None;
               doc_chunk_index := None; doc_page_number := None |};
     hit_vector_distance := None;
     hit_text_match := Some (7 # 1) |}.

(** An index whose second hit lacks its content. *)
Definition index_with_gap (collection : string) (p : SearchParams)
  : reply SearchResponse :=
  Ok {| hits := Some (Scenarios.lexical_hits ++ [hit_without_content])%list |}.

(** An index that accepts every document, and one that is down. *)
Definition upsert_ok (collection : string) (d : IndexedDocument)
  : reply unit := Ok tt.
Definition upsert_down (collection : string) (d : IndexedDocument)
  : reply unit := Fails (ServiceError "index unavailable").

(** A constructor that fails on its first two attempts. *)
Definition construct_third (attempt : nat) : reply nat :=
  if (attempt <? 2)%nat then Fails (ServiceError "index unavailable")
  else Ok attempt.

End Shapes.

(** * Properties *)

(** ** Strings and slices *)

Module PyFacts.

Lemma lstrip_head (s : string) (c : ascii) (r : string) :
  lstrip s = String c r -> is_space c = false.
Proof.
  induction s as [| a s IH]; simpl.
  - discriminate.
  - destruct (is_space a) eqn:Ha.
    + exact IH.
    + intros E. injection E as -> _. exact Ha.
Qed.

Lemma rstrip_keeps_head (c : ascii) (r : string) :
  is_space c = false -> exists r', rstrip (String c r) = String c r'.
Proof.
  intros Hc. simpl. destruct (rstrip r) as [| c' r'].
  - rewrite Hc. now exists "".
  - now exists (String c' r').
Qed.

Lemma strip_head (s : string) (c : ascii) (r : string) :
  strip s = String c r -> is_space c = false.
Proof.
  unfold strip. destruct (lstrip s) as [| a l] eqn:El.
  - discriminate.
  - pose proof (lstrip_head _ _ _ El) as Ha.
    destruct (rstrip_keeps_head a l Ha) as [r' ->].
    intros E. injection E as -> _. exact Ha.
Qed.

Lemma strip_keeps_head (c : ascii) (r : string) :
  is_space c = false -> exists r', strip (String c r) = String c r'.
Proof.
  intros Hc. unfold strip. simpl. rewrite Hc.
  now apply rstrip_keeps_head.
Qed.

Lemma len_nonneg (s : string) : 0 <= len s.
Proof. unfold len. lia. Qed.

Lemma len_cons (c : ascii) (r : string) : len (String c r) = 1 + len r.
Proof. unfold len. simpl String.length. lia. Qed.

(** A slice from position 0 to a positive bound keeps the first
    character. *)
Lemma str_slice_head (c : ascii) (r : string) (e : Z) :
  0 < e -> exists r', str_slice (String c r) (Some 0) (Some e) = String c r'.
Proof.
  intros He. unfold str_slice, slice_bounds, slice_bound.
  rewrite len_cons. pose proof (len_nonneg r) as Hr.
  replace (0 <? 0) with false by reflexivity.
  replace (e <? 0) with false by (symmetry; apply Z.ltb_ge; lia).
  rewrite Z.min_l by lia.
  assert (Hb : exists n, Z.to_nat (Z.min e (1 + len r) - 0) = S n).
  { exists (Z.to_nat (Z.min e (1 + len r) - 1)). lia. }
  destruct Hb as [n ->]. simpl. now eexists.
Qed.

(** The two halves of a list cut at one Python index. *)
Lemma slice_split {A} (l : list A) (j : Z) :
  (slice l None (Some j) ++ slice l (Some j) None)%list = l.
Proof.
  unfold slice, slice_bounds.
  set (n := Z.of_nat (List.length l)).
  set (a := slice_bound n j).
  assert (Ha : 0 <= a <= n).
  { unfold a, slice_bound. destruct (j <? 0) eqn:Hj; lia. }
  rewrite Z.sub_0_r. simpl skipn.
  rewrite (firstn_all2 (n := Z.to_nat (n - a))).
  - apply firstn_skipn.
  - rewrite length_skipn. lia.
Qed.

Lemma slice_last {A} (l : list A) (k : Z) :
  0 < k < Z.of_nat (List.length l) ->
  slice l (Some (- k)) None = skipn (List.length l - Z.to_nat k) l
  /\ List.length (slice l (Some (- k)) None) = Z.to_nat k.
Proof.
  intros Hk. unfold slice, slice_bounds, slice_bound.
  replace (- k <? 0) with true by (symmetry; apply Z.ltb_lt; lia).
  rewrite Z.max_r by lia.
  replace (Z.to_nat (- k + Z.of_nat (List.length l)))
    with (List.length l - Z.to_nat k)%nat by lia.
  rewrite firstn_all2 by (rewrite length_skipn; lia).
  split; [reflexivity | rewrite length_skipn; lia].
Qed.

Lemma or_empty_some (s : string) : or_empty (Some s) = s.
Proof. now destruct s. Qed.

Lemma truthy_false (s : string) : truthy s = false -> s = "".
Proof. destruct s; [reflexivity | discriminate]. Qed.

End PyFacts.

(** ** The chunker *)

Module ChunkerFacts.

Import DocumentProcessor PyFacts.

(** The end of the first window is positive. *)
Lemma first_end_positive (chunk_size : Z) (text : string) :
  0 < chunk_size ->
  0 < (if 0 + chunk_size <? len text
       then
         let sentence_end :=
           _find_sentence_boundary chunk_size text 0 (0 + chunk_size) in
         if sentence_end >? 0 then sentence_end else 0 + chunk_size
       else 0 + chunk_size).
Proof.
  intros Hcs. destruct (0 + chunk_size <? len text); [| lia].
  cbv zeta.
  destruct (_find_sentence_boundary chunk_size text 0 (0 + chunk_size) >? 0)
    eqn:Hse; lia.
Qed.

(** On a text that starts with a character [strip] keeps, the first pass
    of the loop appends a chunk and then fails in the guard. *)
Lemma first_pass_raises (chunk_size chunk_overlap : Z) (c : ascii)
      (r : string) :
  0 < chunk_size -> is_space c = false ->
  loop_body chunk_size chunk_overlap (String c r) 0 [] = Raise guard_error.
Proof.
  intros Hcs Hc. unfold loop_body.
  pose proof (first_end_positive chunk_size (String c r) Hcs) as Hend.
  cbv zeta in *.
  set (end_ := if 0 + chunk_size <? len (String c r) then _ else _) in *.
  destruct (str_slice_head c r end_ Hend) as [r1 ->].
  destruct (strip_keeps_head c r1 Hc) as [r2 ->].
  reflexivity.
Qed.

(** Every text longer than [chunk_size] after trimming makes
    [_chunk_text] raise, whatever the overlap. *)
Lemma chunk_text_long_raises (chunk_size chunk_overlap : Z) (fuel : nat)
      (text : string) :
  0 < chunk_size -> chunk_size < len (strip text) ->
  _chunk_text chunk_size chunk_overlap (S fuel) text = Raise guard_error.
Proof.
  intros Hcs Hlen. unfold _chunk_text.
  replace (len (strip text) <=? chunk_size) with false
    by (symmetry; apply Z.leb_gt; lia).
  destruct (strip text) as [| c r] eqn:Et.
  - unfold len in Hlen. simpl in Hlen. lia.
  - pose proof (strip_head _ _ _ Et) as Hc.
    cbn [chunk_loop].
    replace (0 <? len (String c r)) with true
      by (symmetry; apply Z.ltb_lt; lia).
    now rewrite (first_pass_raises chunk_size chunk_overlap c r Hcs Hc).
Qed.

(** With a positive [chunk_size], a text with something left after
    trimming never yields the empty chunk list. *)
Lemma chunk_text_not_empty_list (chunk_size chunk_overlap : Z) (fuel : nat)
      (text : string) :
  0 < chunk_size -> strip text <> "" ->
  _chunk_text chunk_size chunk_overlap fuel text <> Return [].
Proof.
  intros Hcs Hne.
  destruct (Z.leb_spec (len (strip text)) chunk_size) as [Hle | Hgt].
  - unfold _chunk_text.
    replace (len (strip text) <=? chunk_size) with true
      by (symmetry; apply Z.leb_le; lia).
    discriminate.
  - destruct fuel as [| fuel].
    + unfold _chunk_text.
      replace (len (strip text) <=? chunk_size) with false
        by (symmetry; apply Z.leb_gt; lia).
      cbn [chunk_loop].
      replace (0 <? len (strip text)) with true
        by (symmetry; apply Z.ltb_lt; lia).
      discriminate.
    + rewrite chunk_text_long_raises by assumption. discriminate.
Qed.

(** The guard lets a pass finish only while no chunk has been appended,
    so the loop can hand back nothing but the empty list. *)
Lemma loop_body_returns_no_chunk (chunk_size chunk_overlap : Z)
      (text : string) (start start' : Z) (chunks' : list string) :
  loop_body chunk_size chunk_overlap text start [] = Return (start', chunks')
  -> chunks' = [].
Proof.
  unfold loop_body. cbv zeta.
  destruct (truthy _); cbn [app guard int_le_str bind]; [discriminate |].
  intros E. now injection E as _ <-.
Qed.

Lemma chunk_loop_returns_no_chunk (chunk_size chunk_overlap : Z)
      (text : string) (fuel : nat) :
  forall start chunks,
    chunk_loop chunk_size chunk_overlap fuel text start [] = Return chunks ->
    chunks = [].
Proof.
  induction fuel as [| fuel IH]; intros start chunks; cbn [chunk_loop];
    destruct (start <? len text).
  - discriminate.
  - intros E. now injection E.
  - destruct (loop_body chunk_size chunk_overlap text start [])
      as [[start' chunks'] | e |] eqn:Ebody; cbn [bind fst snd];
      try discriminate.
    apply loop_body_returns_no_chunk in Ebody. subst chunks'. apply IH.
  - intros E. now injection E.
Qed.

(** All that [_chunk_text] can return: the trimmed text of a short
    input, or no chunk at all. *)
Lemma chunk_text_returns (chunk_size chunk_overlap : Z) (fuel : nat)
      (text : string) (chunks : list string) :
  _chunk_text chunk_size chunk_overlap fuel text = Return chunks ->
  (len (strip text) <= chunk_size /\ chunks = [strip text]) \/ chunks = [].
Proof.
  unfold _chunk_text. destruct (Z.leb_spec (len (strip text)) chunk_size).
  - intros E. injection E as <-. now left.
  - intros E. right. exact (chunk_loop_returns_no_chunk _ _ _ _ _ _ E).
Qed.

(** The model on small inputs. *)
Example short_text_is_one_trimmed_chunk :
  _chunk_text 500 50 0 "  hello world  " = Return ["hello world"].
Proof. reflexivity. Qed.

Example boundaries_of_the_scenario :
  _find_sentence_boundary 500 Scenarios.twelve_sentences 0 500 = 500
  /\ _find_sentence_boundary 500 Scenarios.twelve_sentences 450 950 = 900.
Proof. split; vm_compute; reflexivity. Qed.

Example hard_cut_without_boundary :
  _find_sentence_boundary 500 Scenarios.long_word 0 500 = 500.
Proof. vm_compute. reflexivity. Qed.

Example page_of_a_chunk :
  _estimate_page_number "[Page 2] some text"
    [{| pt_page_number := 1; pt_text := "a" |};
     {| pt_page_number := 2; pt_text := "b" |}]
  = Some 2.
Proof. reflexivity. Qed.

End ChunkerFacts.

Module Chunking.

Import DocumentProcessor PyFacts ChunkerFacts Scenarios.

(** C1 (chunking loop terminates within the bound and returns a list; the
    guard forces [start = end]): at a text of 501 letters with
    [chunk_size = 500], [chunk_overlap = 50] the first pass of the loop
    appends a chunk, evaluates the guard [start <= chunks[-1]] on an
    integer and a string, and raises [TypeError]; no list is returned and
    [start] is never set to [end]. *)
Theorem guard_raises_on_long_word (fuel : nat) :
  len long_word = 501
  /\ loop_body default_chunk_size default_chunk_overlap long_word 0 []
     = Raise guard_error
  /\ _chunk_text default_chunk_size default_chunk_overlap (S fuel) long_word
     = Raise guard_error.
Proof.
  split; [reflexivity |]. split.
  - vm_compute. reflexivity.
  - apply chunk_text_long_raises; [reflexivity | vm_compute; reflexivity].
Qed.

(** C6 (1,200 characters with a period every 100, [chunk_size = 500],
    [overlap = 50], give exactly 3 chunks): the scenario input makes
    [_chunk_text] raise [TypeError] in the guard of the first pass, so no
    chunk list is produced. *)
Theorem scenario_twelve_sentences_raises (fuel : nat) :
  len twelve_sentences = 1200
  /\ _chunk_text default_chunk_size default_chunk_overlap (S fuel)
       twelve_sentences
     = Raise guard_error.
Proof.
  split; [reflexivity |].
  apply chunk_text_long_raises; [reflexivity | vm_compute; reflexivity].
Qed.

(** C9 (no returned chunk is empty after trimming): the empty text and a
    text of blanks both come back as the one-element list holding the
    empty string, and [process_text_file] turns it into a chunk with empty
    content. *)
Theorem empty_text_gives_empty_chunk (fuel : nat) :
  _chunk_text default_chunk_size default_chunk_overlap fuel "" = Return [""]
  /\ _chunk_text default_chunk_size default_chunk_overlap fuel "   "
     = Return [""]
  /\ process_text_file default_chunk_size default_chunk_overlap
       (fun _ => "") fuel [] "empty.txt"
     = Return [{| chunk_index := 0; content := ""; page_number := None;
                  metadata := {| filename_of := "empty.txt";
                                 total_pages := None |} |}].
Proof. repeat split. Qed.

End Chunking.

(** ** PDF extraction *)

Module PdfFacts.

Import DocumentProcessor PyFacts ChunkerFacts Scenarios.

Lemma visible_app (a b : string) :
  visible (a ++ b) = visible a || visible b.
Proof.
  induction a as [| c a IH]; simpl; [reflexivity |].
  now rewrite IH, orb_assoc.
Qed.

Lemma visible_lstrip (s : string) :
  visible s = true ->
  exists c r, lstrip s = String c r /\ is_space c = false.
Proof.
  induction s as [| a s IH]; simpl; [discriminate |].
  destruct (is_space a) eqn:Ha; simpl.
  - exact IH.
  - intros _. now exists a, s.
Qed.

Lemma visible_strip (s : string) :
  visible s = true ->
  exists c r, strip s = String c r /\ is_space c = false.
Proof.
  intros Hv. destruct (visible_lstrip s Hv) as (c & r & El & Hc).
  unfold strip. rewrite El.
  destruct (rstrip_keeps_head c r Hc) as [r' ->]. now exists c, r'.
Qed.

Lemma invisible_strip (s : string) : visible s = false -> strip s = "".
Proof.
  unfold strip. induction s as [| a s IH]; simpl; [reflexivity |].
  destruct (is_space a); simpl; [exact IH | discriminate].
Qed.

(** A page that fails is treated like a page without text. *)
Lemma extract_pages_skips (before after : list (reply string)) (e : exn) :
  forall page_num full_text page_texts,
    extract_pages (before ++ Fails e :: after) page_num full_text page_texts
    = extract_pages (before ++ Ok "" :: after) page_num full_text page_texts.
Proof.
  induction before as [| p before IH]; intros; simpl; [reflexivity |].
  destruct p as [t |]; [destruct (truthy t) |]; apply IH.
Qed.

Lemma extract_pages_no_text (pages : list (reply string)) :
  Forall no_text pages ->
  forall page_num full_text page_texts,
    extract_pages pages page_num full_text page_texts
    = (full_text, page_texts).
Proof.
  induction 1 as [| p pages Hp _ IH]; intros; simpl; [reflexivity |].
  destruct p as [t |]; simpl in Hp; [subst t; simpl |]; apply IH.
Qed.

Lemma extract_pages_keeps_visible (pages : list (reply string)) :
  forall page_num full_text page_texts,
    visible full_text = true ->
    visible (fst (extract_pages pages page_num full_text page_texts)) = true.
Proof.
  induction pages as [| p pages IH]; intros n ft pts Hv; simpl;
    [exact Hv |].
  destruct p as [t |]; [destruct (truthy t) |]; apply IH; try exact Hv.
  rewrite visible_app, Hv. reflexivity.
Qed.

Lemma marker_visible (n : Z) (t : string) :
  visible (String "010" (String "010" "") ++ page_marker n
           ++ String "010" t) = true.
Proof. reflexivity. Qed.

Lemma extract_pages_has_text (pages : list (reply string)) :
  Exists has_text pages ->
  forall page_num full_text page_texts,
    visible (fst (extract_pages pages page_num full_text page_texts)) = true.
Proof.
  induction 1 as [p pages Hp | p pages _ IH]; intros n ft pts.
  - destruct p as [t |]; simpl in Hp; [| contradiction].
    destruct t as [| c t]; [congruence |]. cbn [extract_pages truthy].
    apply extract_pages_keeps_visible.
    rewrite visible_app, marker_visible. apply orb_true_r.
  - simpl. destruct p as [t |]; [destruct (truthy t) |]; apply IH.
Qed.

Lemma format_chunks_nil (mk : Z -> string -> Chunk) (i : Z)
      (chunks : list string) :
  format_chunks mk i chunks = [] -> chunks = [].
Proof. destruct chunks; [reflexivity | discriminate]. Qed.

End PdfFacts.

Module PdfProcessing.

Import DocumentProcessor PyFacts ChunkerFacts Scenarios PdfFacts.

Section Reader.

Variables chunk_size chunk_overlap : Z.
Variable PdfReader : list byte -> reply (list (reply string)).
Variables (fuel : nat) (content_bytes : list byte) (filename : string).
Variable pages : list (reply string).

Hypothesis chunk_size_positive : 0 < chunk_size.
Hypothesis reader_opens : PdfReader content_bytes = Ok pages.

(** What the page loop and the test [not full_text.strip()] do get
    right: a page whose extraction fails is processed exactly as a page
    that extracts the empty string, a document whose pages all fail or
    extract the empty string comes back as the empty chunk list, and a
    document with a page that extracts a string that is not empty never
    gets that answer. *)
Lemma failed_page_reads_as_empty_page :
  (forall before after e PdfReader',
      pages = (before ++ Fails e :: after)%list ->
      PdfReader' content_bytes = Ok (before ++ Ok "" :: after)%list ->
      process_pdf_file chunk_size chunk_overlap true PdfReader fuel
        content_bytes filename
      = process_pdf_file chunk_size chunk_overlap true PdfReader' fuel
          content_bytes filename)
  /\ (Forall no_text pages ->
      process_pdf_file chunk_size chunk_overlap true PdfReader fuel
        content_bytes filename
      = Return [])
  /\ (Exists has_text pages ->
      process_pdf_file chunk_size chunk_overlap true PdfReader fuel
        content_bytes filename
      <> Return []).
Proof.
  unfold process_pdf_file. cbn [negb]. rewrite reader_opens.
  cbn [call bind]. repeat split.
  - intros before after e R' -> HR'. rewrite HR'. cbn [call bind].
    rewrite extract_pages_skips. rewrite !length_app. reflexivity.
  - intros Hno. rewrite (extract_pages_no_text pages Hno). reflexivity.
  - intros Hex.
    pose proof (extract_pages_has_text pages Hex 1 "" []) as Hv.
    destruct (extract_pages pages 1 "" []) as [full_text page_texts].
    cbn [fst] in Hv.
    destruct (visible_strip full_text Hv) as (c & r & Es & Hc).
    rewrite Es. cbn [truthy negb].
    destruct (strip_keeps_head c r Hc) as [r' Es'].
    pose proof (chunk_text_not_empty_list chunk_size chunk_overlap fuel
                  (String c r) chunk_size_positive) as Hne.
    rewrite Es' in Hne. specialize (Hne ltac:(discriminate)).
    destruct (_chunk_text chunk_size chunk_overlap fuel (String c r))
      as [chunks | e |]; cbn [bind try_except]; try discriminate.
    intros E. injection E as E. apply format_chunks_nil in E.
    now subst chunks.
Qed.

End Reader.

(** Three pages, the second of which fails, and two pages that give
    nothing. *)
Example failed_page_reads_as_empty_page_on_three_pages :
  process_pdf_file 500 50 true (fun _ => Ok three_pages) 4 [] "a.pdf"
  = process_pdf_file 500 50 true (fun _ => Ok three_pages_skipped) 4 []
      "a.pdf"
  /\ process_pdf_file 500 50 true (fun _ => Ok three_pages) 4 [] "a.pdf"
     <> Return []
  /\ process_pdf_file 500 50 true (fun _ => Ok blank_pages) 4 [] "b.pdf"
     = Return [].
Proof.
  split; [| split].
  - apply (failed_page_reads_as_empty_page 500 50
             (fun _ => Ok three_pages) 4 [] "a.pdf" three_pages
             ltac:(lia) eq_refl)
      with (before := [Ok "Hello."]) (after := [Ok ""])
           (e := ValueError "bad page");
      reflexivity.
  - apply (failed_page_reads_as_empty_page 500 50
             (fun _ => Ok three_pages) 4 [] "a.pdf" three_pages
             ltac:(lia) eq_refl).
    apply Exists_cons_hd. simpl. discriminate.
  - apply (failed_page_reads_as_empty_page 500 50
             (fun _ => Ok blank_pages) 4 [] "b.pdf" blank_pages
             ltac:(lia) eq_refl).
    repeat constructor.
Qed.

(** C8 (a document that yields no usable text is reported to the caller
    as a failure): a PDF whose only page extracts a single blank is not
    reported.  The page loop takes the blank for text and writes the
    page marker in front of it, so the test [not full_text.strip()],
    which does report the same document when the page extracts the empty
    string, finds the marker; the document comes back as one chunk whose
    content is "[Page 1]" and nothing else. *)
Theorem blank_page_pdf_is_not_reported
        (fuel : nat) (content_bytes : list byte) (filename : string) :
  strip " " = ""
  /\ extract_pages [Ok " "] 1 "" []
     = (String "010" (String "010" "[Page 1]") ++ String "010" " ",
        [{| pt_page_number := 1; pt_text := " " |}])
  /\ process_pdf_file default_chunk_size default_chunk_overlap true
       (fun _ => Ok [Ok " "]) fuel content_bytes filename
     = Return [{| chunk_index := 0; content := "[Page 1]";
                  page_number := Some 1;
                  metadata := {| filename_of := filename;
                                 total_pages := Some 1 |} |}]
  /\ process_pdf_file default_chunk_size default_chunk_overlap true
       (fun _ => Ok [Ok ""]) fuel content_bytes filename
     = Return [].
Proof. repeat split. Qed.

End PdfProcessing.

(** ** The context optimiser *)

Module ContextFacts.

Import Models ContextManager PyFacts.

Section Manager.

Variable encode : string -> list Z.
Variable max_tokens : Z.
Variable chat_completions_create : string -> Z -> reply string.
Variable float_truncate_at : Z -> Z -> Z -> Z.

Lemma count_tokens_nonneg (text : string) : 0 <= count_tokens encode text.
Proof. unfold count_tokens. lia. Qed.

Lemma count_messages_tokens_from (messages : list Message) (acc : Z) :
  fold_left
    (fun total message =>
       total + count_tokens encode (role_value (role message))
       + count_tokens encode (content message) + 4)
    messages acc
  = acc + count_messages_tokens encode messages.
Proof.
  unfold count_messages_tokens. revert acc.
  induction messages as [| m messages IH]; intros acc; cbn [fold_left];
    [lia |].
  rewrite (IH (acc + _ + _ + 4)), (IH (0 + _ + _ + 4)). lia.
Qed.

Lemma count_messages_tokens_cons (m : Message) (messages : list Message) :
  count_messages_tokens encode (m :: messages)
  = count_tokens encode (role_value (role m))
    + count_tokens encode (content m) + 4
    + count_messages_tokens encode messages.
Proof.
  unfold count_messages_tokens at 1. cbn [fold_left].
  rewrite count_messages_tokens_from. lia.
Qed.

Lemma count_messages_tokens_app (older recent : list Message) :
  count_messages_tokens encode (older ++ recent)
  = count_messages_tokens encode older + count_messages_tokens encode recent.
Proof.
  induction older as [| m older IH]; [reflexivity |].
  rewrite <- app_comm_cons, !count_messages_tokens_cons, IH. lia.
Qed.

(** Every message costs at least its four framing tokens. *)
Lemma count_messages_tokens_positive (m : Message) (messages : list Message) :
  4 <= count_messages_tokens encode (m :: messages).
Proof.
  rewrite count_messages_tokens_cons.
  pose proof (count_tokens_nonneg (role_value (role m))).
  pose proof (count_tokens_nonneg (content m)).
  assert (0 <= count_messages_tokens encode messages).
  { clear. induction messages as [| x l IH]; [reflexivity |].
    rewrite count_messages_tokens_cons.
    pose proof (count_tokens_nonneg (role_value (role x))).
    pose proof (count_tokens_nonneg (content x)). lia. }
  lia.
Qed.

Lemma older_recent_split (messages : list Message) (preserve_recent : Z) :
  (older_of messages preserve_recent ++ recent_of messages preserve_recent)%list
  = messages.
Proof.
  unfold older_of, recent_of.
  destruct (Z.of_nat (List.length messages) >? preserve_recent).
  - apply slice_split.
  - reflexivity.
Qed.

Lemma older_recent_tokens (messages : list Message) (preserve_recent : Z) :
  count_messages_tokens encode (older_of messages preserve_recent)
  + count_messages_tokens encode (recent_of messages preserve_recent)
  = count_messages_tokens encode messages.
Proof.
  rewrite <- count_messages_tokens_app, older_recent_split. reflexivity.
Qed.

Lemma recent_of_last_three (messages : list Message) :
  older_of messages 3 <> [] ->
  recent_of messages 3 = skipn (List.length messages - 3) messages
  /\ List.length (recent_of messages 3) = 3%nat.
Proof.
  unfold older_of, recent_of.
  destruct (Z.of_nat (List.length messages) >? 3) eqn:Hlen;
    [intros _ | congruence].
  apply Z.gtb_lt in Hlen.
  apply (slice_last messages 3). lia.
Qed.

(** Within the budget nothing is dropped and nothing is summarised. *)
Lemma select_within_budget (messages : list Message)
      (additional_context : option string) (preserve_recent : Z) :
  count_messages_tokens encode messages
  + additional_tokens_of encode additional_context <= max_tokens ->
  select_messages encode max_tokens chat_completions_create messages
    additional_context preserve_recent
  = (messages, "",
     count_messages_tokens encode messages
     + additional_tokens_of encode additional_context).
Proof.
  intros Hfit. unfold select_messages.
  pose proof (older_recent_tokens messages preserve_recent) as Htok.
  pose proof (older_recent_split messages preserve_recent) as Hsplit.
  destruct (older_of messages preserve_recent) as [| m older] eqn:Eo.
  - cbn [is_nil negb]. rewrite andb_false_r.
    cbn [app] in Hsplit. rewrite Hsplit. reflexivity.
  - pose proof (count_messages_tokens_positive m older) as Hpos.
    cbn [is_nil negb]. rewrite andb_true_r.
    replace (_ >? 0) with true by (symmetry; apply Z.gtb_lt; lia).
    replace (_ <=? _) with true by (symmetry; apply Z.leb_le; lia).
    f_equal. lia.
Qed.

(** A positive budget that the older messages exceed leads to the
    summary. *)
Lemma select_summarizes (messages : list Message)
      (additional_context : option string) (preserve_recent : Z) :
  0 < available_tokens_of encode max_tokens messages additional_context
        preserve_recent
    < count_messages_tokens encode (older_of messages preserve_recent) ->
  select_messages encode max_tokens chat_completions_create messages
    additional_context preserve_recent
  = (recent_of messages preserve_recent,
     "Previous conversation summary: "
     ++ _summarize_messages chat_completions_create
          (older_of messages preserve_recent)
          (available_tokens_of encode max_tokens messages additional_context
             preserve_recent / 2)
     ++ newline ++ newline,
     count_messages_tokens encode (recent_of messages preserve_recent)
     + count_tokens encode
         (_summarize_messages chat_completions_create
            (older_of messages preserve_recent)
            (available_tokens_of encode max_tokens messages
               additional_context preserve_recent / 2))
     + additional_tokens_of encode additional_context).
Proof.
  unfold available_tokens_of, select_messages. intros [Hpos Hover].
  destruct (older_of messages preserve_recent) as [| m older] eqn:Eo.
  - cbn in Hover. lia.
  - cbn [is_nil negb]. rewrite andb_true_r.
    replace (_ >? 0) with true by (symmetry; apply Z.gtb_lt; lia).
    replace (_ <=? _) with false by (symmetry; apply Z.leb_gt; lia).
    reflexivity.
Qed.

(** A context that already fits is returned as it is. *)
Lemma compress_context_fits (context : string) (limit : Z) :
  count_tokens encode context <= limit ->
  _compress_context encode float_truncate_at context limit = Return context.
Proof.
  intros Hfit. unfold _compress_context.
  now replace (_ <=? limit) with true by (symmetry; apply Z.leb_le; lia).
Qed.

End Manager.

Example recent_and_older_of_four :
  recent_of Scenarios.short_talk 3 = tl Scenarios.short_talk
  /\ older_of Scenarios.short_talk 3 = [Scenarios.msg USER "hi" 1]
  /\ recent_of Scenarios.short_talk 0 = Scenarios.short_talk
  /\ older_of Scenarios.short_talk 0 = [].
Proof. repeat split. Qed.

Example fallback_of_one_message :
  fallback_summary [Scenarios.msg USER "hi" 1]
  = "Earlier conversation covered: hi...".
Proof. reflexivity. Qed.

End ContextFacts.

Module ContextOptimization.

Import Models ContextManager PyFacts ContextFacts Scenarios.

(** C10: with no messages, [optimize_context] returns the empty message
    list, the additional context as it was given (the empty string if
    there was none) and a total of 0 tokens, whatever the size of the
    additional context. *)
Theorem empty_history_returns_context_untouched
        (encode : string -> list Z) (max_tokens : Z)
        (chat_completions_create : string -> Z -> reply string)
        (float_truncate_at : Z -> Z -> Z -> Z) (preserve_recent : Z) :
  optimize_context encode max_tokens chat_completions_create
    float_truncate_at [] None preserve_recent
  = Return ([], "", 0)
  /\ forall additional_context,
      optimize_context encode max_tokens chat_completions_create
        float_truncate_at [] (Some additional_context) preserve_recent
      = Return ([], additional_context, 0).
Proof.
  split; [reflexivity |].
  intros s. unfold optimize_context. cbn [is_nil].
  now rewrite or_empty_some.
Qed.

(** C4, as the code has it: when the tokens of the messages together with
    the tokens of the additional context are at most [max_tokens], all
    messages come back unmodified and in order, and the returned context
    is the additional context alone, without a summary. *)
Theorem within_budget_keeps_all_messages
        (encode : string -> list Z) (max_tokens : Z)
        (chat_completions_create : string -> Z -> reply string)
        (float_truncate_at : Z -> Z -> Z -> Z)
        (messages : list Message) (additional_context : option string)
        (preserve_recent : Z) :
  count_messages_tokens encode messages
  + additional_tokens_of encode additional_context <= max_tokens ->
  exists total_tokens,
    optimize_context encode max_tokens chat_completions_create
      float_truncate_at messages additional_context preserve_recent
    = Return (messages, or_empty additional_context, total_tokens).
Proof.
  intros Hfit. unfold optimize_context.
  destruct messages as [| m messages]; cbn [is_nil]; [now exists 0 |].
  rewrite select_within_budget by exact Hfit.
  replace (_ >? max_tokens) with false
    by (symmetry; rewrite Z.gtb_ltb; apply Z.ltb_ge; lia).
  cbn [andb]. eexists. reflexivity.
Qed.

Lemma within_budget_keeps_all_messages_witness :
  count_messages_tokens char_encode short_talk
  + additional_tokens_of char_encode (Some small_context) <= 4000
  /\ exists total_tokens,
      optimize_context char_encode 4000 llm_fixed exact_truncate_at
        short_talk (Some small_context) 3
      = Return (short_talk, small_context, total_tokens).
Proof.
  assert (H : count_messages_tokens char_encode short_talk
              + additional_tokens_of char_encode (Some small_context)
              <= 4000) by (vm_compute; discriminate).
  split; [exact H |].
  exact (within_budget_keeps_all_messages char_encode 4000 llm_fixed
           exact_truncate_at short_talk (Some small_context) 3 H).
Defined.

(** C4 as stated fails: four messages of 50 tokens in all fit in
    [max_tokens = 4000], yet with an additional context of 3955 tokens
    the oldest message is replaced by a summary. *)
Lemma within_budget_counterexample :
  count_messages_tokens char_encode short_talk <= 4000
  /\ optimize_context char_encode 4000 llm_down exact_truncate_at
       short_talk (Some big_context) 3
     = Return (tl short_talk,
               ("Previous conversation summary: "
                ++ "Earlier conversation covered: hi..."
                ++ newline ++ newline) ++ big_context,
               3995)
  /\ tl short_talk <> short_talk.
Proof.
  split; [vm_compute; discriminate |].
  split; [vm_compute; reflexivity | discriminate].
Qed.

(** C5, as the code has it: with [preserve_recent = 3], when the budget
    left after the recent messages and the additional context is positive
    and the older messages exceed it, the older messages are replaced by
    a summary behind the prefix "Previous conversation summary: ", and
    the selected messages are exactly the last three input messages, in
    order. *)
Theorem over_budget_summarizes_and_keeps_last_three
        (encode : string -> list Z) (max_tokens : Z)
        (chat_completions_create : string -> Z -> reply string)
        (float_truncate_at : Z -> Z -> Z -> Z)
        (messages : list Message) (additional_context : option string) :
  0 < available_tokens_of encode max_tokens messages additional_context 3
    < count_messages_tokens encode (older_of messages 3) ->
  exists summary total_tokens,
    optimize_context encode max_tokens chat_completions_create
      float_truncate_at messages additional_context 3
    = Return (skipn (List.length messages - 3) messages,
              ("Previous conversation summary: " ++ summary
               ++ newline ++ newline) ++ or_empty additional_context,
              total_tokens)
    /\ summary
       = _summarize_messages chat_completions_create (older_of messages 3)
           (available_tokens_of encode max_tokens messages
              additional_context 3 / 2)
    /\ List.length (skipn (List.length messages - 3) messages) = 3%nat.
Proof.
  intros Hover.
  assert (Hold : older_of messages 3 <> []).
  { intros E. rewrite E in Hover. cbn in Hover. lia. }
  destruct (recent_of_last_three messages Hold) as [Hrecent Hthree].
  rewrite <- Hrecent. clear Hrecent.
  unfold optimize_context.
  destruct messages as [| m messages]; [now elim Hold |]. cbn [is_nil].
  rewrite select_summarizes by exact Hover.
  set (recent := recent_of (m :: messages) 3) in *.
  set (summary := _summarize_messages _ _ _).
  exists summary.
  destruct (_ && truthy_opt additional_context) eqn:Hcompress.
  - apply andb_prop in Hcompress. destruct Hcompress as [_ Htruthy].
    unfold available_tokens_of, additional_tokens_of in Hover.
    rewrite Htruthy in Hover. fold recent in Hover.
    rewrite compress_context_fits by lia. cbn [bind].
    rewrite or_empty_some. eexists. repeat split. exact Hthree.
  - eexists. repeat split. exact Hthree.
Qed.

Lemma over_budget_summarizes_and_keeps_last_three_witness :
  0 < available_tokens_of char_encode 4000 short_talk (Some big_context) 3
    < count_messages_tokens char_encode (older_of short_talk 3)
  /\ exists summary total_tokens,
      optimize_context char_encode 4000 llm_fixed exact_truncate_at
        short_talk (Some big_context) 3
      = Return (skipn (List.length short_talk - 3) short_talk,
                ("Previous conversation summary: " ++ summary
                 ++ newline ++ newline) ++ or_empty (Some big_context),
                total_tokens)
      /\ summary
         = _summarize_messages llm_fixed (older_of short_talk 3)
             (available_tokens_of char_encode 4000 short_talk
                (Some big_context) 3 / 2)
      /\ List.length (skipn (List.length short_talk - 3) short_talk) = 3%nat.
Proof.
  assert (H : 0 < available_tokens_of char_encode 4000 short_talk
                    (Some big_context) 3
              < count_messages_tokens char_encode (older_of short_talk 3))
    by (vm_compute; split; reflexivity).
  split; [exact H |].
  exact (over_budget_summarizes_and_keeps_last_three char_encode 4000
           llm_fixed exact_truncate_at short_talk (Some big_context) H).
Defined.

(** C5 as stated fails: the three recent messages alone take 4224 tokens
    of [max_tokens = 4000]; the older message (10 tokens) exceeds what is
    left (-224), yet it is dropped without any summary. *)
Lemma over_budget_counterexample :
  long_talk <> []
  /\ available_tokens_of char_encode 4000 long_talk None 3
     < count_messages_tokens char_encode (older_of long_talk 3)
  /\ optimize_context char_encode 4000 llm_fixed exact_truncate_at
       long_talk None 3
     = Return (tl long_talk, "", 4224)
  /\ prefix "Previous conversation summary: " "" = false.
Proof.
  split; [discriminate |].
  split; [vm_compute; reflexivity |].
  split; [vm_compute; reflexivity | reflexivity].
Qed.

End ContextOptimization.

(** ** The search coordinator *)

Module SearchFacts.

Import Models HybridSearch Scenarios Shapes.

Lemma map_outcome_returns {A B} (f : A -> outcome B) (l : list A) :
  forall rs, map_outcome f l = Return rs ->
             Forall2 (fun x y => f x = Return y) l rs.
Proof.
  induction l as [| x l IH]; intros rs; simpl.
  - intros E. injection E as <-. constructor.
  - destruct (f x) as [y | e |] eqn:Ex; cbn [bind]; try discriminate.
    destruct (map_outcome f l) as [ys | e |]; cbn [bind]; try discriminate.
    intros E. injection E as <-. constructor; [exact Ex | now apply IH].
Qed.

Lemma format_hit_scores (h : Hit) (r : SearchResult) :
  format_hit h = Return r -> scored_from h r.
Proof.
  unfold format_hit, getitem.
  destruct (hit_document h) as [doc |]; cbn [bind]; [| discriminate].
  destruct (doc_id doc); cbn [bind]; [| discriminate].
  destruct (doc_document_id doc); cbn [bind]; [| discriminate].
  destruct (doc_document_name doc); cbn [bind]; [| discriminate].
  destruct (doc_content doc); cbn [bind]; [| discriminate].
  intros E. injection E as <-. split; reflexivity.
Qed.

Lemma format_hit_finishes (h : Hit) : format_hit h <> OutOfFuel.
Proof.
  unfold format_hit, getitem.
  destruct (hit_document h) as [doc |]; cbn [bind]; [| discriminate].
  destruct (doc_id doc); cbn [bind]; [| discriminate].
  destruct (doc_document_id doc); cbn [bind]; [| discriminate].
  destruct (doc_document_name doc); cbn [bind]; [| discriminate].
  destruct (doc_content doc); cbn [bind]; discriminate.
Qed.

Lemma format_hits_finish (l : list Hit) :
  map_outcome format_hit l <> OutOfFuel.
Proof.
  induction l as [| h l IH]; simpl; [discriminate |].
  pose proof (format_hit_finishes h) as Hh.
  destruct (format_hit h); cbn [bind]; try congruence.
  destruct (map_outcome format_hit l); cbn [bind]; congruence.
Qed.

Lemma format_hit_complete (h : Hit) :
  complete_hit h = true ->
  exists r, format_hit h = Return r /\ formatted_from h r.
Proof.
  unfold complete_hit, format_hit, formatted_from, getitem.
  destruct (hit_document h) as [doc |]; [| discriminate]. cbn [bind].
  destruct (doc_id doc) eqn:E1; [| discriminate]. cbn [bind].
  destruct (doc_document_id doc) eqn:E2; [| discriminate]. cbn [bind].
  destruct (doc_document_name doc) eqn:E3; [| discriminate]. cbn [bind].
  destruct (doc_content doc) eqn:E4; [| discriminate]. cbn [bind].
  intros _. eexists. split; [reflexivity |].
  exists doc. cbn. repeat split; assumption.
Qed.

Lemma format_hit_incomplete (h : Hit) :
  complete_hit h = false -> exists key, format_hit h = Raise (KeyError key).
Proof.
  unfold complete_hit, format_hit, getitem.
  destruct (hit_document h) as [doc |]; cbn [bind]; [| eauto].
  destruct (doc_id doc); cbn [bind]; [| eauto].
  destruct (doc_document_id doc); cbn [bind]; [| eauto].
  destruct (doc_document_name doc); cbn [bind]; [| eauto].
  destruct (doc_content doc); cbn [bind]; [discriminate | eauto].
Qed.

Lemma format_hits_all_or_nothing (l : list Hit) :
  if forallb complete_hit l
  then exists rs, map_outcome format_hit l = Return rs
                  /\ Forall2 formatted_from l rs
  else exists key, map_outcome format_hit l = Raise (KeyError key).
Proof.
  induction l as [| h l IH]; cbn [forallb map_outcome].
  - exists []. split; [reflexivity | constructor].
  - destruct (complete_hit h) eqn:Hh; cbn [andb].
    + destruct (format_hit_complete h Hh) as (r & -> & Hr). cbn [bind].
      destruct (forallb complete_hit l).
      * destruct IH as (rs & -> & Hrs). cbn [bind]. eauto.
      * destruct IH as (key & ->). cbn [bind]. eauto.
    + destruct (format_hit_incomplete h Hh) as (key & ->). cbn [bind].
      eauto.
Qed.

(** The formatted hits, or the empty list when a hit lacks a key. *)
Lemma formatted_or_empty (l : list Hit) :
  exists rs,
    try_except (map_outcome format_hit l) (fun _ => Return []) = Return rs
    /\ (rs = [] \/ Forall2 scored_from l rs).
Proof.
  pose proof (format_hits_finish l) as Hfin.
  destruct (map_outcome format_hit l) as [rs | e |] eqn:E;
    cbn [try_except]; [| now exists [] ; auto | congruence].
  exists rs. split; [reflexivity | right].
  apply map_outcome_returns in E. clear Hfin.
  induction E as [| h r l rs Hr _ IH]; constructor.
  - now apply format_hit_scores.
  - exact IH.
Qed.

(** The formatted hits when every hit has its keys, the empty list when
    one lacks a key. *)
Lemma formatted_when_complete (l : list Hit) :
  exists rs,
    try_except (map_outcome format_hit l) (fun _ => Return []) = Return rs
    /\ if forallb complete_hit l then Forall2 scored_from l rs else rs = [].
Proof.
  pose proof (format_hits_all_or_nothing l) as H.
  destruct (forallb complete_hit l).
  - destruct H as (rs & E & _). rewrite E. exists rs.
    split; [reflexivity |]. apply map_outcome_returns in E.
    induction E as [| h r l rs Hr _ IH]; constructor;
      [now apply format_hit_scores | exact IH].
  - destruct H as (key & ->). now exists [].
Qed.

Section Engine.

Variable embedding_model : string.
Variable embeddings_create : string -> string -> reply (list (list number)).
Variable documents_search : string -> SearchParams -> reply SearchResponse.
Variables (query : string) (strategy : SearchStrategy) (max_results : Z).
Variables (keyword_weight semantic_weight : number).
Variable document_filter : option string.

(** What one invocation does once the embedding is there. *)
Lemma hybrid_search_embedded (e : list number) (rest : list (list number)) :
  embeddings_create embedding_model query = Ok (e :: rest) ->
  hybrid_search embedding_model embeddings_create documents_search query
    strategy max_results keyword_weight semantic_weight document_filter
  = let p := configure strategy
               (base_params query max_results document_filter)
               e max_results semantic_weight in
    ([EmbeddingsCreate embedding_model query;
      DocumentsSearch COLLECTION_NAME p],
     try_except
       (results <- call (documents_search COLLECTION_NAME p) ;;
        map_outcome format_hit (get_default (hits results) []))
       (fun _ => Return [])).
Proof.
  intros He. unfold hybrid_search, hybrid_search_try. rewrite He.
  reflexivity.
Qed.

(** What one invocation does without an embedding. *)
Lemma hybrid_search_not_embedded :
  (exists e, embeddings_create embedding_model query = Fails e)
  \/ embeddings_create embedding_model query = Ok [] ->
  hybrid_search embedding_model embeddings_create documents_search query
    strategy max_results keyword_weight semantic_weight document_filter
  = ([EmbeddingsCreate embedding_model query], Return []).
Proof.
  intros [[e He] | He]; unfold hybrid_search, hybrid_search_try;
    rewrite He; reflexivity.
Qed.

Lemma embedding_cases :
  (exists e rest, embeddings_create embedding_model query = Ok (e :: rest))
  \/ ((exists e, embeddings_create embedding_model query = Fails e)
      \/ embeddings_create embedding_model query = Ok []).
Proof.
  destruct (embeddings_create embedding_model query) as [[| e rest] | e];
    eauto.
Qed.

End Engine.

End SearchFacts.

Module Retrieval.

Import Models HybridSearch Scenarios Shapes SearchFacts.

(** [hybrid_search] always returns a list. *)
Lemma hybrid_search_always_returns
      (embedding_model : string)
      (embeddings_create : string -> string -> reply (list (list number)))
      (documents_search : string -> SearchParams -> reply SearchResponse)
      (query : string) (strategy : SearchStrategy) (max_results : Z)
      (keyword_weight semantic_weight : number)
      (document_filter : option string) :
  exists rs,
    snd (hybrid_search embedding_model embeddings_create documents_search
           query strategy max_results keyword_weight semantic_weight
           document_filter)
    = Return rs.
Proof.
  destruct (embedding_cases embedding_model embeddings_create query)
    as [(e & rest & He) | Hno].
  - rewrite (hybrid_search_embedded _ _ _ _ _ _ _ _ _ e rest He).
    cbn zeta. cbn [snd].
    destruct (documents_search _ _) as [resp | x]; cbn [call bind].
    + destruct (formatted_or_empty (get_default (hits resp) []))
        as (rs & -> & _).
      now exists rs.
    + now exists [].
  - rewrite hybrid_search_not_embedded by exact Hno. now exists [].
Qed.

(** C7: when a collaborator that [hybrid_search] called answered with an
    exception, be it the embedding service or the index, the function
    returns the empty list and raises nothing. *)
Theorem collaborator_failure_gives_empty_result
        (embedding_model : string)
        (embeddings_create : string -> string -> reply (list (list number)))
        (documents_search : string -> SearchParams -> reply SearchResponse)
        (query : string) (strategy : SearchStrategy) (max_results : Z)
        (keyword_weight semantic_weight : number)
        (document_filter : option string) :
  Exists (failed_call embeddings_create documents_search)
         (fst (hybrid_search embedding_model embeddings_create
                 documents_search query strategy max_results
                 keyword_weight semantic_weight document_filter)) ->
  snd (hybrid_search embedding_model embeddings_create documents_search
         query strategy max_results keyword_weight semantic_weight
         document_filter)
  = Return [].
Proof.
  destruct (embedding_cases embedding_model embeddings_create query)
    as [(e & rest & He) | Hno].
  - rewrite (hybrid_search_embedded _ _ _ _ _ _ _ _ _ e rest He).
    cbn zeta. cbn [fst snd]. intros Hfail.
    inversion Hfail as [c l Hc | c l Hrest]; subst.
    + destruct Hc as [x Hx]. congruence.
    + inversion Hrest as [c l Hc | c l Hnone]; subst.
      * destruct Hc as [x Hx]. rewrite Hx. reflexivity.
      * inversion Hnone.
  - now rewrite hybrid_search_not_embedded by exact Hno.
Qed.

Lemma collaborator_failure_gives_empty_result_witness :
  snd (hybrid_search default_embedding_model embed_down index_ok
         "what is a transformer" KEYWORD 10 (1 # 2) (1 # 2) None)
  = Return []
  /\ snd (hybrid_search default_embedding_model embed_ok index_down
            "what is a transformer" HYBRID 10 (1 # 2) (1 # 2) (Some "d1"))
     = Return [].
Proof.
  split.
  - apply (collaborator_failure_gives_empty_result default_embedding_model
             embed_down index_ok "what is a transformer" KEYWORD 10
             (1 # 2) (1 # 2) None).
    apply Exists_cons_hd. simpl. eexists. reflexivity.
  - apply (collaborator_failure_gives_empty_result default_embedding_model
             embed_ok index_down "what is a transformer" HYBRID 10
             (1 # 2) (1 # 2) (Some "d1")).
    apply Exists_cons_tl, Exists_cons_hd. simpl. eexists. reflexivity.
Defined.

(** C2, as the code has it: with the KEYWORD strategy the embedding
    service is called first all the same.  When it gives no embedding (it
    raises, or its answer holds none), no query goes to the index and the
    result is empty.  When it gives one, exactly one query goes to the
    index, the lexical one (the user's query on the content, weight "1",
    no vector query).  The result is empty when that query fails or a hit
    lacks one of the keys read from it; otherwise it has one entry per
    hit, in the order of the hits, and an entry whose hit carries no
    vector distance has [relevance_score] equal to [text_match_score]. *)
Theorem keyword_search_embeds_then_queries_lexically
        (embedding_model : string)
        (embeddings_create : string -> string -> reply (list (list number)))
        (documents_search : string -> SearchParams -> reply SearchResponse)
        (query : string) (max_results : Z)
        (keyword_weight semantic_weight : number)
        (document_filter : option string) :
  ((exists x, embeddings_create embedding_model query = Fails x)
   \/ embeddings_create embedding_model query = Ok [] ->
   hybrid_search embedding_model embeddings_create documents_search query
     KEYWORD max_results keyword_weight semantic_weight document_filter
   = ([EmbeddingsCreate embedding_model query], Return []))
  /\ (forall e rest,
         embeddings_create embedding_model query = Ok (e :: rest) ->
         exists p results,
           hybrid_search embedding_model embeddings_create documents_search
             query KEYWORD max_results keyword_weight semantic_weight
             document_filter
           = ([EmbeddingsCreate embedding_model query;
               DocumentsSearch COLLECTION_NAME p],
              Return results)
           /\ q p = query
           /\ query_by p = "content"
           /\ query_by_weights p = Some "1"
           /\ vector_query p = None
           /\ match documents_search COLLECTION_NAME p with
              | Ok resp =>
                  if forallb complete_hit (get_default (hits resp) [])
                  then
                    Forall2 scored_from (get_default (hits resp) []) results
                    /\ forall h r,
                        In (h, r)
                           (combine (get_default (hits resp) []) results) ->
                        hit_vector_distance h = None ->
                        relevance_score r = text_match_score r
                  else results = []
              | Fails _ => results = []
              end).
Proof.
  split.
  - intros Hno. now apply hybrid_search_not_embedded.
  - intros e rest He.
    rewrite (hybrid_search_embedded _ _ _ _ _ _ _ _ _ e rest He). cbv zeta.
    set (p := configure KEYWORD
                (base_params query max_results document_filter)
                e max_results semantic_weight).
    exists p.
    destruct (documents_search COLLECTION_NAME p) as [resp | x];
      cbn [call bind try_except].
    + destruct (formatted_when_complete (get_default (hits resp) []))
        as (rs & -> & Hshape).
      exists rs. do 5 (split; [reflexivity |]).
      destruct (forallb complete_hit (get_default (hits resp) []));
        [| exact Hshape].
      split; [exact Hshape |].
      induction Hshape as [| h r l rs' [Hrel Htm] _ IH];
        intros h' r'; cbn [combine In]; [contradiction |].
      intros [Hpair | Hin] Hd.
      * injection Hpair as <- <-. rewrite Hrel, Htm, Hd. reflexivity.
      * now apply (IH h' r').
    + exists []. do 5 (split; [reflexivity |]). reflexivity.
Qed.

Lemma keyword_search_embeds_then_queries_lexically_witness :
  hybrid_search default_embedding_model embed_down index_ok
    "what is a transformer" KEYWORD 10 (1 # 2) (1 # 2) None
  = ([EmbeddingsCreate default_embedding_model "what is a transformer"],
     Return [])
  /\ exists p results,
      hybrid_search default_embedding_model embed_ok index_ok
        "what is a transformer" KEYWORD 10 (1 # 2) (1 # 2) None
      = ([EmbeddingsCreate default_embedding_model "what is a transformer";
          DocumentsSearch COLLECTION_NAME p],
         Return results)
      /\ q p = "what is a transformer"
      /\ query_by p = "content"
      /\ query_by_weights p = Some "1"
      /\ vector_query p = None
      /\ match index_ok COLLECTION_NAME p with
         | Ok resp =>
             if forallb complete_hit (get_default (hits resp) [])
             then
               Forall2 scored_from (get_default (hits resp) []) results
               /\ forall h r,
                   In (h, r)
                      (combine (get_default (hits resp) []) results) ->
                   hit_vector_distance h = None ->
                   relevance_score r = text_match_score r
             else results = []
         | Fails _ => results = []
         end.
Proof.
  split.
  - apply (keyword_search_embeds_then_queries_lexically
             default_embedding_model embed_down index_ok
             "what is a transformer" 10 (1 # 2) (1 # 2) None).
    left. eexists. reflexivity.
  - apply (keyword_search_embeds_then_queries_lexically
             default_embedding_model embed_ok index_ok
             "what is a transformer" 10 (1 # 2) (1 # 2) None)
      with (e := [1 # 10; 2 # 10; 3 # 10]) (rest := []).
    reflexivity.
Defined.

(** C2 as stated fails: a KEYWORD search calls the embedding service
    before it queries the index, and returns nothing when that service is
    down; and when the index answers the lexical query with hits that
    carry a vector distance, the [relevance_score] of a result is that
    distance and not its [text_match_score]. *)
Lemma keyword_search_counterexample :
  fst (hybrid_search default_embedding_model embed_ok index_ok
         "what is a transformer" KEYWORD 10 (1 # 2) (1 # 2) None)
  = [EmbeddingsCreate default_embedding_model "what is a transformer";
     DocumentsSearch COLLECTION_NAME
       (configure KEYWORD (base_params "what is a transformer" 10 None)
          [1 # 10; 2 # 10; 3 # 10] 10 (1 # 2))]
  /\ hybrid_search default_embedding_model embed_down index_ok
       "what is a transformer" KEYWORD 10 (1 # 2) (1 # 2) None
     = ([EmbeddingsCreate default_embedding_model "what is a transformer"],
        Return [])
  /\ In (EmbeddingsCreate default_embedding_model "what is a transformer")
        (fst (hybrid_search default_embedding_model embed_ok index_ok
                "what is a transformer" KEYWORD 10 (1 # 2) (1 # 2) None))
  /\ exists results,
      snd (hybrid_search default_embedding_model embed_ok index_with_distances
             "what is a transformer" KEYWORD 10 (1 # 2) (1 # 2) None)
      = Return results
      /\ map relevance_score results = [1 # 10; 1 # 2]
      /\ map text_match_score results = [0; 0]%Q.
Proof.
  split; [reflexivity |]. split; [reflexivity |]. split; [now left |].
  eexists. split; [reflexivity |]. split; reflexivity.
Qed.

(** C3, as the code has it: with the SEMANTIC strategy and an embedding
    in hand, one query goes to the index, the wildcard "*" together with
    a nearest-neighbour query on that embedding with [k = max_results];
    the result is empty or has one entry per hit, in the order of the
    hits, and the [relevance_score] of an entry is the vector distance of
    its hit itself, so a nearer hit has the smaller score. *)
Theorem semantic_search_scores_are_distances
        (embedding_model : string)
        (embeddings_create : string -> string -> reply (list (list number)))
        (documents_search : string -> SearchParams -> reply SearchResponse)
        (query : string) (max_results : Z)
        (keyword_weight semantic_weight : number)
        (document_filter : option string)
        (e : list number) (rest : list (list number)) :
  embeddings_create embedding_model query = Ok (e :: rest) ->
  exists p results,
    hybrid_search embedding_model embeddings_create documents_search query
      SEMANTIC max_results keyword_weight semantic_weight document_filter
    = ([EmbeddingsCreate embedding_model query;
        DocumentsSearch COLLECTION_NAME p],
       Return results)
    /\ q p = "*"
    /\ vector_query p
       = Some {| vq_field := "embedding"; vq_values := e;
                 vq_k := max_results; vq_alpha := None |}
    /\ (results = []
        \/ exists resp,
            documents_search COLLECTION_NAME p = Ok resp
            /\ Forall2 scored_from (get_default (hits resp) []) results
            /\ forall h r d,
                In (h, r) (combine (get_default (hits resp) []) results) ->
                hit_vector_distance h = Some d -> relevance_score r = d).
Proof.
  intros He.
  rewrite (hybrid_search_embedded _ _ _ _ _ _ _ _ _ e rest He). cbv zeta.
  set (p := configure SEMANTIC
              (base_params query max_results document_filter)
              e max_results semantic_weight).
  exists p.
  destruct (documents_search COLLECTION_NAME p) as [resp | x] eqn:Eidx;
    cbn [call bind try_except].
  - destruct (formatted_or_empty (get_default (hits resp) []))
      as (rs & -> & Hshape).
    exists rs. repeat split.
    destruct Hshape as [-> | Hshape]; [now left | right].
    exists resp. repeat split; [exact Hshape |].
    clear Eidx. induction Hshape as [| h r l rs' [Hrel _] _ IH];
      intros h' r' d; cbn [combine In]; [tauto |].
    intros [Hpair | Hin] Hd.
    + injection Hpair as <- <-. rewrite Hrel, Hd. reflexivity.
    + now apply (IH h' r' d).
  - exists []. repeat split. now left.
Qed.

Lemma semantic_search_scores_are_distances_witness :
  exists p results,
    hybrid_search default_embedding_model embed_ok index_ok
      "what is a transformer" SEMANTIC 10 (1 # 2) (1 # 2) None
    = ([EmbeddingsCreate default_embedding_model "what is a transformer";
        DocumentsSearch COLLECTION_NAME p],
       Return results)
    /\ q p = "*"
    /\ vector_query p
       = Some {| vq_field := "embedding";
                 vq_values := [1 # 10; 2 # 10; 3 # 10];
                 vq_k := 10; vq_alpha := None |}
    /\ (results = []
        \/ exists resp,
            index_ok COLLECTION_NAME p = Ok resp
            /\ Forall2 scored_from (get_default (hits resp) []) results
            /\ forall h r d,
                In (h, r) (combine (get_default (hits resp) []) results) ->
                hit_vector_distance h = Some d -> relevance_score r = d).
Proof.
  exact (semantic_search_scores_are_distances default_embedding_model
           embed_ok index_ok "what is a transformer" 10 (1 # 2) (1 # 2)
           None [1 # 10; 2 # 10; 3 # 10] [] eq_refl).
Defined.

(** C3 as stated fails: the index returns a hit at distance 1/10 before
    a hit at distance 1/2; the results keep that order with the scores
    1/10 and 1/2, so the nearer hit has the lower score and the sequence
    ascends in [relevance_score]. *)
Lemma semantic_search_counterexample :
  map hit_vector_distance vector_hits = [Some (1 # 10); Some (1 # 2)]
  /\ exists results,
      snd (hybrid_search default_embedding_model embed_ok index_ok
             "what is a transformer" SEMANTIC 10 (1 # 2) (1 # 2) None)
      = Return results
      /\ map chunk_id results = ["c1"; "c7"]
      /\ map relevance_score results = [1 # 10; 1 # 2]
      /\ (1 # 10 < 1 # 2)%Q
      /\ ~ (1 # 2 <= 1 # 10)%Q.
Proof.
  split; [reflexivity |]. eexists. split; [reflexivity |].
  repeat split. intros H. now apply H.
Qed.

End Retrieval.

(** * Further properties of the code *)

(** ** More on strings *)

Module StringFacts.

Lemma substring_nothing (n : nat) (s : string) : substring n 0 s = "".
Proof.
  revert s. induction n as [| n IH]; intros [| c s]; simpl; auto.
Qed.

Lemma substring_length_le (n m : nat) (s : string) :
  (String.length (substring n m s) <= String.length s - n)%nat
  /\ (String.length (substring n m s) <= m)%nat.
Proof.
  revert n m. induction s as [| c s IH]; intros [| n] [| m]; simpl;
    try lia.
  - destruct (IH 0%nat m). lia.
  - apply IH.
  - apply IH.
Qed.

Lemma substring_substring (s : string) :
  forall a m k n,
    (k + n <= m)%nat ->
    substring k n (substring a m s) = substring (a + k) n s.
Proof.
  induction s as [| c s IH]; intros a m k n Hk.
  - destruct a, m, k, n; reflexivity.
  - destruct a as [| a].
    + cbn [Nat.add]. revert s IH k n Hk.
      induction m as [| m IHm]; intros s IH k n Hk.
      * assert (k = 0 /\ n = 0)%nat as [-> ->] by lia. reflexivity.
      * destruct k as [| k].
        -- destruct n as [| n]; [reflexivity |]. simpl. f_equal.
           apply (IH 0%nat m 0%nat n). lia.
        -- simpl. apply (IH 0%nat m k n). lia.
    + simpl. apply IH. exact Hk.
Qed.

Lemma rfind_from_spec (sub s : string) :
  forall i last,
    rfind_from sub s i last = last
    \/ exists k,
        rfind_from sub s i last = i + Z.of_nat k
        /\ (k <= String.length s)%nat
        /\ substring k (String.length sub) s = sub.
Proof.
  induction s as [| c s IH]; intros i last.
  - cbn [rfind_from]. destruct (prefix sub "") eqn:Hp; [| now left].
    right. exists 0%nat. split; [lia |]. split; [lia |].
    now apply prefix_correct.
  - cbn [rfind_from].
    destruct (IH (i + 1) (if prefix sub (String c s) then i else last))
      as [-> | (k & -> & Hle & Hk)].
    + destruct (prefix sub (String c s)) eqn:Hp; [| now left].
      right. exists 0%nat. split; [lia |]. split; [lia |].
      now apply prefix_correct.
    + right. exists (S k). split; [lia |]. split; [simpl; lia | exact Hk].
Qed.

(** [s.rfind(sub)] is -1 or a position where [sub] occurs in [s]. *)
Lemma rfind_spec (s sub : string) :
  rfind s sub = -1
  \/ exists k,
      rfind s sub = Z.of_nat k
      /\ substring k (String.length sub) s = sub
      /\ (k + String.length sub <= String.length s)%nat.
Proof.
  unfold rfind.
  destruct (rfind_from_spec sub s 0 (-1)) as [-> | (k & E & Hks & Hk)];
    [now left | right].
  exists k. split; [rewrite E; lia | split; [exact Hk |]].
  pose proof (substring_length_le k (String.length sub) s) as [Hle _].
  rewrite Hk in Hle. lia.
Qed.

Lemma contains_app_r (sub a b : string) :
  contains sub b = true -> contains sub (a ++ b) = true.
Proof.
  intros Hb. induction a as [| c a IH]; [exact Hb |].
  cbn [append contains]. rewrite IH. apply orb_true_r.
Qed.

Lemma prefix_app (sub rest : string) : prefix sub (sub ++ rest) = true.
Proof.
  induction sub as [| c sub IH]; simpl; [now destruct rest |].
  destruct (ascii_dec c c); [exact IH | congruence].
Qed.

Lemma prefix_app_l (sub a b : string) :
  prefix sub a = true -> prefix sub (a ++ b) = true.
Proof.
  revert a. induction sub as [| c sub IH]; intros a; simpl.
  - intros _. now destruct (a ++ b).
  - destruct a as [| x a]; [discriminate |]. simpl.
    destruct (ascii_dec c x); [apply IH | discriminate].
Qed.

Lemma contains_app_l (sub a b : string) :
  contains sub a = true -> contains sub (a ++ b) = true.
Proof.
  induction a as [| c a IH]; cbn [append contains].
  - rewrite orb_false_r. intros Hp.
    destruct sub; [now destruct b | discriminate].
  - intros H. apply orb_true_iff in H. destruct H as [Hp | Hc].
    + pose proof (prefix_app_l sub (String c a) b Hp) as Hp'.
      cbn [append] in Hp'. now rewrite Hp'.
    + rewrite (IH Hc). apply orb_true_r.
Qed.

Lemma contains_here (sub a b : string) : contains sub (a ++ sub ++ b) = true.
Proof.
  apply contains_app_r. destruct (sub ++ b) eqn:E; cbn [contains];
    rewrite <- E, prefix_app; reflexivity.
Qed.

(** [sub in s] holds exactly when [s] is some text, [sub], some text. *)
Lemma contains_spec (sub s : string) :
  contains sub s = true <-> exists a b, s = a ++ sub ++ b.
Proof.
  split.
  - induction s as [| c s IH]; cbn [contains].
    + rewrite orb_false_r. intros Hp. exists "", "".
      destruct sub; [reflexivity | discriminate].
    + intros H. apply orb_true_iff in H. destruct H as [Hp | Hc].
      * apply prefix_correct in Hp. exists "".
        exists (substring (String.length sub)
                  (String.length (String c s) - String.length sub)
                  (String c s)).
        cbn [append]. rewrite <- Hp at 1.
        clear. generalize (String c s). intros t. revert sub.
        induction t as [| x t IH]; intros [| y sub]; simpl; auto.
        -- f_equal. clear. induction t; simpl; [reflexivity |].
           now f_equal.
        -- f_equal. apply IH.
      * destruct (IH Hc) as (a & b & ->). now exists (String c a), b.
  - intros (a & b & ->). apply contains_here.
Qed.

Lemma length_app (a b : string) :
  String.length (a ++ b) = (String.length a + String.length b)%nat.
Proof. induction a; simpl; auto. Qed.

Lemma len_app (a b : string) : len (a ++ b) = len a + len b.
Proof. unfold len. rewrite length_app. lia. Qed.

End StringFacts.

(** ** More on the chunker *)

Module ChunkerExtras.

Import DocumentProcessor PyFacts ChunkerFacts StringFacts.

(** X1 ([estimate_chunks]): for [chunk_overlap < chunk_size] and a length
    above [chunk_size], the estimate is the number of steps of
    [chunk_size - chunk_overlap] characters needed to cover the length,
    that is the quotient rounded up. *)
Theorem estimate_chunks_is_ceiling (chunk_size chunk_overlap length : Z) :
  chunk_overlap < chunk_size -> chunk_size < length ->
  exists n,
    estimate_chunks chunk_size chunk_overlap length = Return n
    /\ (n - 1) * (chunk_size - chunk_overlap) < length
       <= n * (chunk_size - chunk_overlap).
Proof.
  intros Hov Hlen. unfold estimate_chunks.
  replace (length <=? chunk_size) with false
    by (symmetry; apply Z.leb_gt; lia).
  replace (chunk_size - chunk_overlap =? 0) with false
    by (symmetry; apply Z.eqb_neq; lia).
  cbv zeta. eexists. split; [reflexivity |].
  set (d := chunk_size - chunk_overlap).
  assert (Hd : 0 < d) by (unfold d; lia).
  pose proof (Z.div_mod (length + d - 1) d ltac:(lia)) as Hdm.
  pose proof (Z.mod_pos_bound (length + d - 1) d Hd) as Hmod.
  nia.
Qed.

Lemma estimate_chunks_is_ceiling_witness :
  exists n,
    estimate_chunks 500 50 1200 = Return n
    /\ (n - 1) * (500 - 50) < 1200 <= n * (500 - 50).
Proof.
  exact (estimate_chunks_is_ceiling 500 50 1200 ltac:(lia) ltac:(lia)).
Defined.

(** X2 ([estimate_chunks]): the estimate fails, with a division by zero,
    exactly when the length exceeds [chunk_size] and the overlap equals
    [chunk_size]; a length of at most [chunk_size] always gives 1. *)
Theorem estimate_chunks_raises_iff (chunk_size chunk_overlap length : Z) :
  ((exists e, estimate_chunks chunk_size chunk_overlap length = Raise e)
   <-> chunk_size < length /\ chunk_overlap = chunk_size)
  /\ (estimate_chunks chunk_size chunk_overlap length = Return 1
      \/ chunk_size < length).
Proof.
  unfold estimate_chunks.
  destruct (Z.leb_spec length chunk_size) as [Hle | Hgt].
  - split; [| now left]. split; [intros [e E]; discriminate | lia].
  - split; [| now right]. cbv zeta.
    destruct (Z.eqb_spec (chunk_size - chunk_overlap) 0) as [Hz | Hnz].
    + split; [intros _; lia | intros _; eauto].
    + split; [intros [e E]; discriminate | lia].
Qed.

(** A pass that ends without an exception, under a window of no width and
    a negative overlap, moves [start] forward by at least
    [chunk_size - chunk_overlap]. *)
Lemma loop_body_advances (chunk_size chunk_overlap : Z) (text : string)
      (start start' : Z) (chunks' : list string) :
  chunk_overlap < chunk_size -> chunk_size <= 0 ->
  loop_body chunk_size chunk_overlap text start [] = Return (start', chunks')
  -> start + (chunk_size - chunk_overlap) <= start'.
Proof.
  intros Hov Hcs. unfold loop_body. cbv zeta.
  destruct (truthy _); cbn [app guard int_le_str bind]; [discriminate |].
  intros E. injection E as <- _.
  destruct (start + chunk_size <? len text); [| lia].
  destruct (_ >? start) eqn:Hse; [| lia].
  apply Z.gtb_lt in Hse. lia.
Qed.

Lemma loop_body_finishes (chunk_size chunk_overlap : Z) (text : string)
      (start : Z) (chunks : list string) :
  loop_body chunk_size chunk_overlap text start chunks <> OutOfFuel.
Proof.
  unfold loop_body. cbv zeta.
  destruct (guard _ _) as [g | e |] eqn:Eg; cbn [bind]; try discriminate.
  unfold guard, int_le_str in Eg.
  destruct (if truthy _ then _ else _); discriminate.
Qed.

Lemma chunk_loop_stops (chunk_size chunk_overlap : Z) (text : string) :
  chunk_overlap < chunk_size -> chunk_size <= 0 ->
  forall fuel start,
    len text - start <= Z.of_nat fuel * (chunk_size - chunk_overlap) ->
    chunk_loop chunk_size chunk_overlap fuel text start [] <> OutOfFuel.
Proof.
  intros Hov Hcs. induction fuel as [| fuel IH]; intros start Hfuel;
    cbn [chunk_loop]; destruct (Z.ltb_spec start (len text)) as [Hlt | Hge];
    try discriminate.
  - lia.
  - pose proof (loop_body_finishes chunk_size chunk_overlap text start [])
      as Hfin.
    destruct (loop_body chunk_size chunk_overlap text start [])
      as [[start' chunks'] | e |] eqn:Ebody; cbn [bind fst snd];
      [| discriminate | congruence].
    pose proof (loop_body_advances _ _ _ _ _ _ Hov Hcs Ebody) as Hadv.
    apply loop_body_returns_no_chunk in Ebody. subst chunks'.
    apply IH. nia.
Qed.

(** X3 ([_chunk_text], the [while] loop): with
    [chunk_overlap < chunk_size] the loop always stops, by returning or by
    raising: as many passes as it takes steps of
    [chunk_size - chunk_overlap] to cover the trimmed text are enough. *)
Theorem chunk_text_stops_within_bound (chunk_size chunk_overlap : Z)
        (fuel : nat) (text : string) :
  chunk_overlap < chunk_size ->
  len (strip text) <= Z.of_nat fuel * (chunk_size - chunk_overlap) ->
  _chunk_text chunk_size chunk_overlap fuel text <> OutOfFuel.
Proof.
  intros Hov Hfuel.
  destruct (Z.leb_spec (len (strip text)) chunk_size) as [Hshort | Hlong].
  - unfold _chunk_text.
    replace (len (strip text) <=? chunk_size) with true
      by (symmetry; apply Z.leb_le; lia).
    discriminate.
  - destruct (Z.lt_ge_cases 0 chunk_size) as [Hpos | Hneg].
    + destruct fuel as [| fuel]; [cbn in Hfuel; lia |].
      rewrite chunk_text_long_raises by assumption. discriminate.
    + unfold _chunk_text.
      replace (len (strip text) <=? chunk_size) with false
        by (symmetry; apply Z.leb_gt; lia).
      apply chunk_loop_stops; try assumption. lia.
Qed.

Lemma chunk_text_stops_within_bound_witness :
  _chunk_text 500 50 4 Scenarios.twelve_sentences <> OutOfFuel
  /\ _chunk_text 0 (-3) 4 "hello world" <> OutOfFuel.
Proof.
  split.
  - apply (chunk_text_stops_within_bound 500 50 4 Scenarios.twelve_sentences);
      [lia | vm_compute; discriminate].
  - apply (chunk_text_stops_within_bound 0 (-3) 4 "hello world");
      [lia | vm_compute; discriminate].
Defined.

(** One pass with a window of no width: nothing is cut, and [start] moves
    back by the overlap. *)
Lemma zero_window_pass (chunk_overlap : Z) (text : string) (start : Z) :
  start < len text ->
  loop_body 0 chunk_overlap text start []
  = Return (start - chunk_overlap, []).
Proof.
  intros Hlt. unfold loop_body. cbv zeta.
  rewrite Z.add_0_r.
  replace (start <? len text) with true by (symmetry; apply Z.ltb_lt; lia).
  assert (Hslice : str_slice text (Some start) (Some start) = "").
  { unfold str_slice, slice_bounds. rewrite Z.sub_diag.
    apply substring_nothing. }
  assert (Hse : _find_sentence_boundary 0 text start start = start).
  { unfold _find_sentence_boundary. cbv zeta.
    replace (start - 0 / 5) with start by (cbn; lia).
    rewrite Hslice. reflexivity. }
  rewrite Hse.
  replace (start >? start) with false
    by (symmetry; rewrite Z.gtb_ltb; apply Z.ltb_irrefl).
  rewrite Hslice. reflexivity.
Qed.

(** X4 ([_chunk_text], the [while] loop): with [chunk_size = 0] and an
    overlap that is not negative the loop never ends on a text that is
    not blank: whatever the number of passes allowed, it is still
    running. *)
Theorem zero_window_never_stops (chunk_overlap : Z) (fuel : nat)
        (text : string) :
  0 <= chunk_overlap -> strip text <> "" ->
  _chunk_text 0 chunk_overlap fuel text = OutOfFuel.
Proof.
  intros Hov Hne. unfold _chunk_text.
  assert (Hlen : 0 < len (strip text)).
  { destruct (strip text); [congruence |]. rewrite len_cons.
    pose proof (len_nonneg s). lia. }
  replace (len (strip text) <=? 0) with false
    by (symmetry; apply Z.leb_gt; lia).
  assert (Hloop : forall start, start <= 0 ->
             chunk_loop 0 chunk_overlap fuel (strip text) start []
             = OutOfFuel).
  { induction fuel as [| fuel IH]; intros start Hstart; cbn [chunk_loop];
      replace (start <? len (strip text)) with true
        by (symmetry; apply Z.ltb_lt; lia);
      [reflexivity |].
    rewrite zero_window_pass by lia. cbn [bind fst snd].
    apply IH. lia. }
  apply Hloop. lia.
Qed.

Lemma zero_window_never_stops_witness :
  _chunk_text 0 0 1000 "hello world" = OutOfFuel.
Proof.
  apply (zero_window_never_stops 0 1000 "hello world");
    [lia | discriminate].
Defined.

(** X5 ([_chunk_text]): a list that [_chunk_text] returns never holds
    more than one chunk: it is the trimmed text, for a text of at most
    [chunk_size] characters after trimming, or it is empty. *)
Theorem chunk_text_returns_at_most_one_chunk
        (chunk_size chunk_overlap : Z) (fuel : nat) (text : string)
        (chunks : list string) :
  _chunk_text chunk_size chunk_overlap fuel text = Return chunks ->
  (List.length chunks <= 1)%nat
  /\ ((len (strip text) <= chunk_size /\ chunks = [strip text])
      \/ chunks = []).
Proof.
  intros E. pose proof (chunk_text_returns _ _ _ _ _ E) as H.
  split; [| exact H]. destruct H as [[_ ->] | ->]; simpl; lia.
Qed.

Lemma chunk_text_returns_at_most_one_chunk_witness :
  (List.length ["hello world"] <= 1)%nat
  /\ ((len (strip "  hello world ") <= 500
       /\ ["hello world"] = [strip "  hello world "])
      \/ ["hello world"] = []).
Proof.
  exact (chunk_text_returns_at_most_one_chunk 500 50 3 "  hello world "
           ["hello world"] eq_refl).
Defined.

(** X6 ([process_text_file]): with a positive [chunk_size] a text file
    gives exactly one chunk, numbered 0, without page and holding the
    trimmed text, when that text has at most [chunk_size] characters, and
    the empty list when it is longer; it never raises. *)
Theorem process_text_file_one_chunk_or_none
        (chunk_size chunk_overlap : Z) (decode : list byte -> string)
        (fuel : nat) (content_bytes : list byte) (filename : string) :
  0 < chunk_size ->
  process_text_file chunk_size chunk_overlap decode (S fuel) content_bytes
    filename
  = Return
      (if len (strip (decode content_bytes)) <=? chunk_size
       then [{| chunk_index := 0;
                content := strip (decode content_bytes);
                page_number := None;
                metadata := {| filename_of := filename;
                               total_pages := None |} |}]
       else []).
Proof.
  intros Hcs. unfold process_text_file.
  destruct (Z.leb_spec (len (strip (decode content_bytes))) chunk_size)
    as [Hshort | Hlong].
  - unfold _chunk_text.
    replace (len (strip (decode content_bytes)) <=? chunk_size) with true
      by (symmetry; apply Z.leb_le; lia).
    reflexivity.
  - rewrite chunk_text_long_raises by assumption. reflexivity.
Qed.

Lemma process_text_file_one_chunk_or_none_witness :
  process_text_file 500 50 (fun _ => Scenarios.twelve_sentences) 4 []
    "long.txt"
  = Return [].
Proof.
  exact (process_text_file_one_chunk_or_none 500 50
           (fun _ => Scenarios.twelve_sentences) 3 [] "long.txt"
           ltac:(lia)).
Defined.

(** The first delimiter of the list found in the window, with the place
    of its last occurrence. *)
Lemma first_boundary_spec (search_text : string) (search_start end_ : Z)
      (ds : list string) :
  (forall d, In d ds -> String.length d = 2%nat) ->
  first_boundary search_text search_start end_ ds = end_
  \/ exists d k,
      In d ds
      /\ first_boundary search_text search_start end_ ds
         = search_start + Z.of_nat k + 2
      /\ substring k 2 search_text = d
      /\ (k + 2 <= String.length search_text)%nat.
Proof.
  induction ds as [| d ds IH]; intros Hlen; cbn [first_boundary];
    [now left |].
  assert (Hd : String.length d = 2%nat) by (apply Hlen; now left).
  destruct (rfind_spec search_text d) as [-> | (k & -> & Hsub & Hk)].
  - cbn [Z.eqb negb].
    destruct IH as [IH | (d' & k & Hin & E & Hsub & Hk)];
      [intros x Hx; apply Hlen; now right | now left |].
    right. exists d', k. repeat split; auto. now right.
  - replace (negb (Z.of_nat k =? -1)) with true
      by (symmetry; apply negb_true_iff, Z.eqb_neq; lia).
    right. exists d, k. rewrite Hd in *. unfold len. rewrite Hd.
    repeat split; auto. now left.
Qed.

(** X7 ([_find_sentence_boundary]): for a window that starts inside the
    text (its last fifth does not begin before position 0), the position
    returned is the hard cut [end] itself or lies in the last fifth of
    the window, at most at [end] and at most at the end of the text, right
    after one of the six sentence delimiters. *)
Theorem sentence_boundary_sits_after_delimiter
        (chunk_size : Z) (text : string) (start end_ : Z) :
  0 <= chunk_size -> 0 <= end_ - chunk_size / 5 ->
  _find_sentence_boundary chunk_size text start end_ = end_
  \/ (end_ - chunk_size / 5 + 2
        <= _find_sentence_boundary chunk_size text start end_ <= end_
      /\ _find_sentence_boundary chunk_size text start end_ <= len text
      /\ In (str_slice text
               (Some (_find_sentence_boundary chunk_size text start end_ - 2))
               (Some (_find_sentence_boundary chunk_size text start end_)))
            delimiters).
Proof.
  intros Hcs Hss. unfold _find_sentence_boundary. cbv zeta.
  set (ss := end_ - chunk_size / 5) in *.
  assert (Hfifth : 0 <= chunk_size / 5) by (apply Z.div_pos; lia).
  assert (Hend : ss <= end_) by (unfold ss; lia).
  destruct (first_boundary_spec (str_slice text (Some ss) (Some end_)) ss
              end_ delimiters)
    as [E | (d & k & Hin & E & Hsub & Hk)].
  - intros d Hd. cbn in Hd.
    repeat (destruct Hd as [<- | Hd]; [reflexivity |]). contradiction.
  - now left.
  - right. rewrite E. clear E.
    unfold str_slice, slice_bounds, slice_bound in *.
    pose proof (len_nonneg text) as HL.
    replace (ss <? 0) with false in * by (symmetry; apply Z.ltb_ge; lia).
    replace (end_ <? 0) with false in * by (symmetry; apply Z.ltb_ge; lia).
    set (a := Z.to_nat (Z.min ss (len text))) in *.
    set (m := Z.to_nat (Z.min end_ (len text) - Z.min ss (len text))) in *.
    pose proof (substring_length_le a m text) as [_ Hm].
    assert (Hkm : (k + 2 <= m)%nat) by lia.
    assert (Hin_text : ss + Z.of_nat k + 2 <= Z.min end_ (len text))
      by (unfold m in Hkm; lia).
    repeat split; try lia.
    replace (ss + Z.of_nat k + 2 - 2 <? 0) with false
      by (symmetry; apply Z.ltb_ge; lia).
    replace (ss + Z.of_nat k + 2 <? 0) with false
      by (symmetry; apply Z.ltb_ge; lia).
    rewrite !Z.min_l by lia.
    rewrite (substring_substring text a m k 2 Hkm) in Hsub.
    replace (Z.to_nat (ss + Z.of_nat k + 2 - 2)) with (a + k)%nat
      by (unfold a; lia).
    replace (Z.to_nat (ss + Z.of_nat k + 2 - (ss + Z.of_nat k + 2 - 2)))
      with 2%nat by lia.
    rewrite Hsub. exact Hin.
Qed.

Lemma sentence_boundary_sits_after_delimiter_witness :
  _find_sentence_boundary 500 Scenarios.twelve_sentences 450 950 = 950
  \/ (950 - 500 / 5 + 2
        <= _find_sentence_boundary 500 Scenarios.twelve_sentences 450 950
        <= 950
      /\ _find_sentence_boundary 500 Scenarios.twelve_sentences 450 950
         <= len Scenarios.twelve_sentences
      /\ In (str_slice Scenarios.twelve_sentences
               (Some (_find_sentence_boundary 500 Scenarios.twelve_sentences
                        450 950 - 2))
               (Some (_find_sentence_boundary 500 Scenarios.twelve_sentences
                        450 950)))
            delimiters).
Proof.
  exact (sentence_boundary_sits_after_delimiter 500
           Scenarios.twelve_sentences 450 950 ltac:(lia)
           ltac:(vm_compute; discriminate)).
Defined.

End ChunkerExtras.

(** ** More on PDF processing *)

Module PdfExtras.

Import DocumentProcessor PyFacts ChunkerFacts StringFacts Scenarios PdfFacts.

Lemma app_assoc_str (a b c : string) : (a ++ b) ++ c = a ++ (b ++ c).
Proof. induction a; simpl; [reflexivity | now f_equal]. Qed.

Lemma app_empty_str (a : string) : a ++ "" = a.
Proof. induction a; simpl; [reflexivity | now f_equal]. Qed.

Lemma rstrip_idempotent (s : string) : rstrip (rstrip s) = rstrip s.
Proof.
  induction s as [| c s IH]; [reflexivity |]. cbn [rstrip].
  destruct (rstrip s) as [| c' r'] eqn:Er.
  - destruct (is_space c) eqn:Hc; [reflexivity |]. simpl. now rewrite Hc.
  - cbn [rstrip]. cbn [rstrip] in IH.
    destruct (match rstrip r' with
              | "" => if is_space c' then "" else String c' ""
              | String c'0 r'0 => String c' (String c'0 r'0)
              end); [discriminate |].
    now injection IH as -> ->.
Qed.

(** Trimming twice is trimming once. *)
Lemma strip_idempotent (s : string) : strip (strip s) = strip s.
Proof.
  destruct (strip s) as [| c r] eqn:Es; [reflexivity |].
  pose proof (strip_head _ _ _ Es) as Hc.
  unfold strip in *. cbn [lstrip]. rewrite Hc.
  rewrite <- Es. apply rstrip_idempotent.
Qed.

(** Trimming on the right leaves everything up to a character that is
    not a blank. *)
Lemma rstrip_keeps_prefix (s : string) (c : ascii) (t : string) :
  is_space c = false ->
  exists t', rstrip (s ++ String c t) = s ++ String c t'.
Proof.
  intros Hc. induction s as [| x s [t' IH]].
  - apply rstrip_keeps_head. exact Hc.
  - exists t'. cbn [append rstrip]. rewrite IH.
    destruct (s ++ String c t') eqn:E; [| reflexivity].
    destruct s; discriminate.
Qed.

(** What the page loop records: the pages that gave text, under their
    position in the document counted from [page_num]. *)
Lemma extract_pages_records (pages : list (reply string)) :
  forall page_num full_text page_texts pt,
    In pt (snd (extract_pages pages page_num full_text page_texts))
    <-> In pt page_texts
        \/ exists i,
            nth_error pages i = Some (Ok (pt_text pt))
            /\ pt_text pt <> ""
            /\ pt_page_number pt = page_num + Z.of_nat i.
Proof.
  induction pages as [| page pages IH]; intros n ft pts pt.
  - cbn [extract_pages snd]. split; [now left |].
    intros [H | (i & Hi & _)]; [exact H | now destruct i].
  - assert (Hshift : (exists i, nth_error pages i = Some (Ok (pt_text pt))
                                /\ pt_text pt <> ""
                                /\ pt_page_number pt = n + 1 + Z.of_nat i)
                     -> exists i, nth_error (page :: pages) i
                                  = Some (Ok (pt_text pt))
                                  /\ pt_text pt <> ""
                                  /\ pt_page_number pt = n + Z.of_nat i).
    { intros (i & Hi & Ht & Hn). exists (S i). repeat split; auto. lia. }
    assert (Hback : forall i, nth_error (page :: pages) (S i)
                              = Some (Ok (pt_text pt)) ->
                              pt_text pt <> "" ->
                              pt_page_number pt = n + Z.of_nat (S i) ->
                              exists j, nth_error pages j
                                        = Some (Ok (pt_text pt))
                                        /\ pt_text pt <> ""
                                        /\ pt_page_number pt
                                           = n + 1 + Z.of_nat j).
    { intros i Hi Ht Hn. exists i. repeat split; auto. lia. }
    cbn [extract_pages].
    destruct page as [t | e]; [destruct (truthy t) eqn:Ht |]; rewrite IH.
    + rewrite in_app_iff. cbn [In]. split.
      * intros [[H | [<- | []]] | H]; [now left | | right; auto].
        right. exists 0%nat. cbn. repeat split; [| lia].
        destruct t; [discriminate | congruence].
      * intros [H | (i & Hi & Hne & Hn)]; [now left; left |].
        destruct i as [| i]; [| right; eauto].
        left. right. left. cbn in Hi. injection Hi as ->.
        destruct pt as [k txt]. cbn in *. f_equal. lia.
    + split.
      * intros [H | H]; [now left | right; auto].
      * intros [H | (i & Hi & Hne & Hn)]; [now left |].
        destruct i as [| i]; [| right; eauto].
        cbn in Hi. injection Hi as ->. apply truthy_false in Ht.
        congruence.
    + split.
      * intros [H | H]; [now left | right; auto].
      * intros [H | (i & Hi & Hne & Hn)]; [now left |].
        destruct i as [| i]; [discriminate | right; eauto].
Qed.

(** The marker of every recorded page stands in [full_text]. *)
Lemma extract_pages_markers (pages : list (reply string)) :
  forall page_num full_text page_texts,
    (forall pt, In pt page_texts ->
                contains (page_marker (pt_page_number pt)) full_text = true) ->
    forall pt,
      In pt (snd (extract_pages pages page_num full_text page_texts)) ->
      contains (page_marker (pt_page_number pt))
               (fst (extract_pages pages page_num full_text page_texts))
      = true.
Proof.
  induction pages as [| page pages IH]; intros n ft pts Hpts;
    cbn [extract_pages]; [exact Hpts |].
  destruct page as [t | e]; [destruct (truthy t) |]; apply IH; auto.
  intros pt Hin. apply in_app_iff in Hin. destruct Hin as [Hin | [<- | []]].
  - apply contains_app_l. now apply Hpts.
  - cbn [pt_page_number]. apply contains_app_r.
    apply (contains_here (page_marker n) (String "010" (String "010" ""))
             (String "010" t)).
Qed.

(** X8 ([_estimate_page_number]): the page returned is that of the first
    entry of [page_texts] whose marker "[Page n]" occurs in the chunk,
    and no page is returned exactly when no entry's marker occurs. *)
Theorem estimate_page_number_first_marker (chunk : string)
        (page_texts : list PageText) :
  match _estimate_page_number chunk page_texts with
  | Some n =>
      exists before pt after,
        page_texts = (before ++ pt :: after)%list
        /\ pt_page_number pt = n
        /\ (exists a b, chunk = a ++ page_marker n ++ b)
        /\ Forall (fun p => ~ exists a b,
                       chunk = a ++ page_marker (pt_page_number p) ++ b)
                  before
  | None =>
      Forall (fun p => ~ exists a b,
                  chunk = a ++ page_marker (pt_page_number p) ++ b)
             page_texts
  end.
Proof.
  induction page_texts as [| p pts IH]; cbn [_estimate_page_number];
    [constructor |].
  destruct (contains (page_marker (pt_page_number p)) chunk) eqn:Hc.
  - exists [], p, pts. repeat split; [| constructor].
    now apply contains_spec.
  - assert (Hp : ~ exists a b,
                   chunk = a ++ page_marker (pt_page_number p) ++ b).
    { intros H. apply contains_spec in H. congruence. }
    destruct (_estimate_page_number chunk pts) as [n |].
    + destruct IH as (before & pt & after & -> & Hn & Hin & Hbefore).
      exists (p :: before), pt, after. repeat split; auto.
    + now constructor.
Qed.

Lemma _estimate_page_number_sound (chunk : string)
      (page_texts : list PageText) (n : Z) :
  _estimate_page_number chunk page_texts = Some n ->
  contains (page_marker n) chunk = true
  /\ exists pt, In pt page_texts /\ pt_page_number pt = n.
Proof.
  induction page_texts as [| p pts IH]; cbn [_estimate_page_number];
    [discriminate |].
  destruct (contains (page_marker (pt_page_number p)) chunk) eqn:Hc.
  - intros E. injection E as <-. split; [exact Hc |].
    exists p. split; [now left | reflexivity].
  - intros E. destruct (IH E) as (Hm & pt & Hin & Hn).
    split; [exact Hm |]. exists pt. split; [now right | exact Hn].
Qed.

Lemma in_format_chunks (mk : Z -> string -> Chunk) (chunks : list string) :
  forall i c,
    In c (format_chunks mk i chunks) ->
    exists j chunk, c = mk j chunk /\ In chunk chunks.
Proof.
  induction chunks as [| chunk chunks IH]; intros i c; cbn [format_chunks];
    [contradiction |].
  intros [<- | Hin].
  - exists i, chunk. split; [reflexivity | now left].
  - destruct (IH _ _ Hin) as (j & x & -> & Hx). exists j, x.
    split; [reflexivity | now right].
Qed.

(** X9 ([process_pdf_file]): whatever goes wrong inside, the only
    exception that leaves [process_pdf_file] is a [ValueError]. *)
Theorem process_pdf_file_raises_only_value_error
        (chunk_size chunk_overlap : Z) (PDF_AVAILABLE : bool)
        (PdfReader : list byte -> reply (list (reply string)))
        (fuel : nat) (content_bytes : list byte) (filename : string)
        (e : exn) :
  process_pdf_file chunk_size chunk_overlap PDF_AVAILABLE PdfReader fuel
    content_bytes filename
  = Raise e ->
  exists msg, e = ValueError msg.
Proof.
  unfold process_pdf_file. destruct PDF_AVAILABLE; cbn [negb].
  - match goal with
    | |- try_except ?m _ = _ -> _ => destruct m as [r | x |]
    end; cbn [try_except]; try discriminate.
    intros E. injection E as <-. eauto.
  - intros E. injection E as <-. eauto.
Qed.

Lemma process_pdf_file_raises_only_value_error_witness :
  exists msg,
    ValueError
      ("Failed to process PDF: "
       ++ "'<=' not supported between instances of 'int' and 'str'")
    = ValueError msg.
Proof.
  exact (process_pdf_file_raises_only_value_error 500 50 true
           (fun _ => Ok [Ok twelve_sentences]) 4 [] "a.pdf" _ eq_refl).
Defined.

(** X10 ([process_pdf_file]): in every chunk returned, a page number is
    the position, counted from 1, of a page of the document that gave
    text, and the marker of that page occurs in the chunk; the metadata
    carry the file name and the number of pages of the document, failed
    pages included. *)
Theorem process_pdf_file_pages_are_positions
        (chunk_size chunk_overlap : Z)
        (PdfReader : list byte -> reply (list (reply string)))
        (fuel : nat) (content_bytes : list byte) (filename : string)
        (pages : list (reply string)) (chunks : list Chunk) :
  PdfReader content_bytes = Ok pages ->
  process_pdf_file chunk_size chunk_overlap true PdfReader fuel
    content_bytes filename
  = Return chunks ->
  Forall
    (fun c =>
       metadata c
       = {| filename_of := filename;
            total_pages := Some (Z.of_nat (List.length pages)) |}
       /\ forall n,
           page_number c = Some n ->
           1 <= n <= Z.of_nat (List.length pages)
           /\ (exists page_text,
                  nth_error pages (Z.to_nat (n - 1)) = Some (Ok page_text)
                  /\ page_text <> "")
           /\ exists a b, content c = a ++ page_marker n ++ b)
    chunks.
Proof.
  intros Hreader. unfold process_pdf_file. cbn [negb].
  rewrite Hreader. cbn [call bind].
  pose proof (fun pt => proj1 (extract_pages_records pages 1 "" [] pt))
    as Hrec.
  destruct (extract_pages pages 1 "" []) as [full_text page_texts].
  cbn [snd] in Hrec.
  destruct (truthy (strip full_text)); cbn [negb].
  - destruct (_chunk_text chunk_size chunk_overlap fuel (strip full_text))
      as [texts | x |]; cbn [bind try_except]; try discriminate.
    intros E. injection E as <-. apply Forall_forall. intros c Hc.
    apply in_format_chunks in Hc. destruct Hc as (j & chunk & -> & _).
    cbn [metadata page_number content]. split; [reflexivity |].
    intros n Hn. apply _estimate_page_number_sound in Hn.
    destruct Hn as (Hmark & pt & Hin & <-).
    destruct (Hrec pt Hin) as [[] | (i & Hi & Hne & Hnum)].
    assert (Hlt : (i < List.length pages)%nat)
      by (apply nth_error_Some; congruence).
    rewrite Hnum. repeat split; try lia.
    + exists (pt_text pt).
      replace (Z.to_nat (1 + Z.of_nat i - 1)) with i by lia. auto.
    + rewrite <- Hnum. now apply contains_spec.
  - cbn [try_except]. intros E. injection E as <-. constructor.
Qed.

Lemma process_pdf_file_pages_are_positions_witness :
  exists chunks,
    process_pdf_file 500 50 true
      (fun _ => Ok [Fails (ValueError "bad page"); Ok "Hello."]) 4 []
      "a.pdf"
    = Return chunks
    /\ map page_number chunks = [Some 2]
    /\ Forall
         (fun c =>
            metadata c
            = {| filename_of := "a.pdf"; total_pages := Some 2 |}
            /\ forall n,
                page_number c = Some n ->
                1 <= n <= 2
                /\ (exists page_text,
                       nth_error [Fails (ValueError "bad page"); Ok "Hello."]
                         (Z.to_nat (n - 1))
                       = Some (Ok page_text)
                       /\ page_text <> "")
                /\ exists a b, content c = a ++ page_marker n ++ b)
         chunks.
Proof.
  eexists. split; [reflexivity |]. split; [reflexivity |].
  exact (process_pdf_file_pages_are_positions 500 50
           (fun _ => Ok [Fails (ValueError "bad page"); Ok "Hello."]) 4 []
           "a.pdf" _ _ eq_refl eq_refl).
Defined.

(** The page loop only adds to what it was given. *)
Lemma extract_pages_extends (pages : list (reply string)) :
  forall page_num full_text page_texts,
  exists more_text more_pages,
    extract_pages pages page_num full_text page_texts
    = (full_text ++ more_text, (page_texts ++ more_pages)%list).
Proof.
  induction pages as [| page pages IH]; intros n ft pts;
    cbn [extract_pages].
  - exists "", []. now rewrite app_nil_r, app_empty_str.
  - destruct page as [t | e]; [destruct (truthy t) |]; try apply IH.
    destruct (IH (n + 1)
                (ft ++ String "010" (String "010" "") ++ page_marker n
                 ++ String "010" t)
                (pts ++ [{| pt_page_number := n; pt_text := t |}])%list)
      as (mt & mp & ->).
    eexists. eexists. rewrite app_assoc_str, <- app_assoc. reflexivity.
Qed.

Lemma extract_pages_after_no_text (before rest : list (reply string)) :
  Forall no_text before ->
  forall page_num full_text page_texts,
    extract_pages (before ++ rest) page_num full_text page_texts
    = extract_pages rest (page_num + Z.of_nat (List.length before))
        full_text page_texts.
Proof.
  induction 1 as [| p before Hp _ IH]; intros n ft pts.
  - cbn. now rewrite Z.add_0_r.
  - cbn [app extract_pages List.length].
    replace (n + Z.of_nat (S (List.length before)))
      with (n + 1 + Z.of_nat (List.length before)) by lia.
    destruct p as [t | e]; cbn in Hp; [subst t; cbn [truthy] |]; apply IH.
Qed.

(** The text of a document whose first page with text is page [n] starts,
    after trimming, with the marker of that page. *)
Lemma strip_starts_with_marker (n : Z) (rest : string) :
  exists rest',
    strip (String "010" (String "010" "") ++ page_marker n ++ rest)
    = page_marker n ++ rest'.
Proof.
  unfold strip, page_marker. cbn [append lstrip].
  replace (is_space "010") with true by reflexivity.
  replace (is_space "[") with false by reflexivity.
  pose proof (rstrip_keeps_prefix ("[Page " ++ str_int n) "]" rest
                eq_refl) as [t' Ht].
  exists t'.
  rewrite !app_assoc_str in *. cbn [append] in *. exact Ht.
Qed.

(** X11 ([process_pdf_file]): with a positive [chunk_size], a document
    whose extracted text fits in one chunk comes back as exactly one
    chunk, numbered 0, holding the whole trimmed text and attributed to
    the first page that gave text, counted from 1 with failed and empty
    pages included. *)
Theorem short_pdf_is_one_chunk_of_first_page
        (chunk_size chunk_overlap : Z)
        (PdfReader : list byte -> reply (list (reply string)))
        (fuel : nat) (content_bytes : list byte) (filename : string)
        (before after : list (reply string)) (page_text : string) :
  0 < chunk_size ->
  PdfReader content_bytes = Ok (before ++ Ok page_text :: after)%list ->
  Forall no_text before -> page_text <> "" ->
  len (strip (fst (extract_pages (before ++ Ok page_text :: after) 1 ""
                     [])))
  <= chunk_size ->
  process_pdf_file chunk_size chunk_overlap true PdfReader fuel
    content_bytes filename
  = Return
      [{| chunk_index := 0;
          content :=
            strip (fst (extract_pages (before ++ Ok page_text :: after) 1
                          "" []));
          page_number := Some (Z.of_nat (List.length before) + 1);
          metadata :=
            {| filename_of := filename;
               total_pages :=
                 Some (Z.of_nat
                         (List.length (before ++ Ok page_text :: after))) |}
       |}].
Proof.
  intros Hcs Hreader Hbefore Hne Hfit. unfold process_pdf_file.
  cbn [negb]. rewrite Hreader. cbn [call bind].
  rewrite (extract_pages_after_no_text before _ Hbefore) in *.
  cbn [extract_pages] in *.
  replace (truthy page_text) with true in *
    by (destruct page_text; [congruence | reflexivity]).
  set (n := 1 + Z.of_nat (List.length before)) in *.
  destruct (extract_pages_extends after (n + 1)
              ("" ++ String "010" (String "010" "") ++ page_marker n
               ++ String "010" page_text)
              ([] ++ [{| pt_page_number := n; pt_text := page_text |}]))
    as (mt & mp & E).
  rewrite E in *. cbn [fst] in *. cbn [app] in *.
  change ("" ++ ?x) with x in *.
  rewrite ?app_assoc_str in *.
  destruct (strip_starts_with_marker n (String "010" page_text ++ mt))
    as [rest' Hstrip].
  rewrite ?app_assoc_str in Hstrip.
  set (full := String "010" (String "010" "") ++ page_marker n
               ++ String "010" page_text ++ mt) in *.
  assert (Htruthy : truthy (strip full) = true)
    by (rewrite Hstrip; reflexivity).
  rewrite Htruthy. cbn [negb].
  unfold _chunk_text. rewrite strip_idempotent.
  replace (len (strip full) <=? chunk_size) with true
    by (symmetry; apply Z.leb_le; lia).
  cbn [bind try_except format_chunks _estimate_page_number pt_page_number].
  assert (Hmark : contains (page_marker n) (strip full) = true).
  { rewrite Hstrip. apply (contains_here (page_marker n) "" rest'). }
  rewrite Hmark. do 4 f_equal. lia.
Qed.

Lemma short_pdf_is_one_chunk_of_first_page_witness :
  process_pdf_file 500 50 true
    (fun _ => Ok [Fails (ValueError "bad page"); Ok "Hello."; Ok "Bye."])
    0 [] "a.pdf"
  = Return
      [{| chunk_index := 0;
          content :=
            "[Page 2]" ++ String "010" "Hello." ++ String "010" ""
            ++ String "010" "[Page 3]" ++ String "010" "Bye.";
          page_number := Some 2;
          metadata := {| filename_of := "a.pdf"; total_pages := Some 3 |}
       |}].
Proof.
  exact (short_pdf_is_one_chunk_of_first_page 500 50
           (fun _ => Ok [Fails (ValueError "bad page"); Ok "Hello.";
                         Ok "Bye."])
           0 [] "a.pdf" [Fails (ValueError "bad page")] [Ok "Bye."] "Hello."
           ltac:(lia) eq_refl
           ltac:(repeat constructor) ltac:(discriminate)
           ltac:(vm_compute; discriminate)).
Defined.

Lemma rstrip_invisible (t : string) : visible t = false -> rstrip t = "".
Proof.
  induction t as [| c t IH]; cbn [visible rstrip]; [reflexivity |].
  destruct (is_space c); cbn [negb orb]; [| discriminate].
  intros Hv. now rewrite (IH Hv).
Qed.

(** Trimming on the right removes the blanks that follow the last
    character that is not one. *)
Lemma rstrip_drops_blanks (s : string) (c : ascii) (t : string) :
  is_space c = false -> visible t = false ->
  rstrip (s ++ String c t) = s ++ String c "".
Proof.
  intros Hc Ht. induction s as [| x s IH].
  - cbn [append rstrip]. now rewrite (rstrip_invisible t Ht), Hc.
  - cbn [append rstrip]. rewrite IH.
    destruct (s ++ String c "") eqn:E; [| reflexivity].
    destruct s; discriminate.
Qed.

Lemma strip_empty_invisible (s : string) : strip s = "" -> visible s = false.
Proof.
  intros Hs. destruct (visible s) eqn:Hv; [| reflexivity].
  destruct (visible_strip s Hv) as (c & r & E & _). congruence.
Qed.

(** The text of a document whose only page with text is page [n], a page
    of blanks, is after trimming the marker of that page. *)
Lemma strip_leaves_marker (n : Z) (blanks : string) :
  visible blanks = false ->
  strip (String "010" (String "010" "") ++ page_marker n
         ++ String "010" blanks)
  = page_marker n.
Proof.
  intros Hb. unfold strip, page_marker. cbn [append lstrip].
  replace (is_space "010") with true by reflexivity.
  replace (is_space "[") with false by reflexivity.
  pose proof (rstrip_drops_blanks ("[Page " ++ str_int n) "]"
                (String "010" blanks) eq_refl) as H.
  rewrite !app_assoc_str in *. cbn [append] in *. apply H.
  cbn [visible]. exact Hb.
Qed.

Lemma strip_marker (n : Z) : strip (page_marker n) = page_marker n.
Proof.
  unfold strip, page_marker. cbn [append lstrip].
  replace (is_space "[") with false by reflexivity.
  pose proof (rstrip_drops_blanks ("[Page " ++ str_int n) "]" ""
                eq_refl eq_refl) as H.
  rewrite !app_assoc_str in *. cbn [append] in *. exact H.
Qed.

(** The marker defeats the test [not full_text.strip()]: a document
    whose pages give nothing but for one page of blanks comes back, when
    the marker fits in a chunk, as one chunk that holds the marker of
    that page and nothing else. *)
Lemma blank_page_gives_marker_chunk
      (chunk_size chunk_overlap : Z)
      (PdfReader : list byte -> reply (list (reply string)))
      (fuel : nat) (content_bytes : list byte) (filename : string)
      (before after : list (reply string)) (page_text : string) :
  PdfReader content_bytes = Ok (before ++ Ok page_text :: after)%list ->
  Forall no_text before -> Forall no_text after ->
  page_text <> "" -> strip page_text = "" ->
  len (page_marker (Z.of_nat (List.length before) + 1)) <= chunk_size ->
  process_pdf_file chunk_size chunk_overlap true PdfReader fuel
    content_bytes filename
  = Return
      [{| chunk_index := 0;
          content := page_marker (Z.of_nat (List.length before) + 1);
          page_number := Some (Z.of_nat (List.length before) + 1);
          metadata :=
            {| filename_of := filename;
               total_pages :=
                 Some (Z.of_nat
                         (List.length (before ++ Ok page_text :: after))) |}
       |}].
Proof.
  intros Hreader Hbefore Hafter Hne Hblank Hfit. unfold process_pdf_file.
  cbn [negb]. rewrite Hreader. cbn [call bind].
  rewrite (extract_pages_after_no_text before _ Hbefore).
  cbn [extract_pages].
  replace (truthy page_text) with true
    by (destruct page_text; [congruence | reflexivity]).
  rewrite (extract_pages_no_text after Hafter).
  replace (1 + Z.of_nat (List.length before))
    with (Z.of_nat (List.length before) + 1) by lia.
  set (n := Z.of_nat (List.length before) + 1) in *.
  change ("" ++ ?x) with x. cbn [app].
  rewrite (strip_leaves_marker n page_text
             (strip_empty_invisible _ Hblank)).
  replace (truthy (page_marker n)) with true by reflexivity.
  cbn [negb]. unfold _chunk_text. rewrite strip_marker.
  replace (len (page_marker n) <=? chunk_size) with true
    by (symmetry; apply Z.leb_le; lia).
  cbn [bind try_except format_chunks _estimate_page_number pt_page_number].
  pose proof (contains_here (page_marker n) "" "") as Hmark.
  cbn [append] in Hmark. rewrite app_empty_str in Hmark.
  rewrite Hmark. reflexivity.
Qed.

End PdfExtras.

(** ** More on the context optimiser *)

Module ContextExtras.

Import Models ContextManager PyFacts StringFacts ContextFacts Scenarios.

Section Manager.

Variable encode : string -> list Z.
Variable max_tokens : Z.
Variable chat_completions_create : string -> Z -> reply string.
Variable float_truncate_at : Z -> Z -> Z -> Z.

(** X12 ([count_messages_tokens]): the count of a conversation is the sum
    of the counts of its parts, and every message costs at least its
    four framing tokens. *)
Theorem count_messages_tokens_adds_up (older recent : list Message) :
  count_messages_tokens encode (older ++ recent)
  = count_messages_tokens encode older + count_messages_tokens encode recent
  /\ 4 * Z.of_nat (List.length older) <= count_messages_tokens encode older.
Proof using Type.
  split; [apply count_messages_tokens_app |].
  induction older as [| m older IH]; [reflexivity |].
  rewrite count_messages_tokens_cons. cbn [List.length].
  pose proof (count_tokens_nonneg encode (role_value (role m))).
  pose proof (count_tokens_nonneg encode (content m)). lia.
Qed.

Lemma str_slice_head_length (s : string) (k : Z) :
  0 <= k -> (String.length (str_slice s None (Some k)) <= Z.to_nat k)%nat.
Proof using Type.
  intros Hk. unfold str_slice, slice_bounds, slice_bound.
  replace (k <? 0) with false by (symmetry; apply Z.ltb_ge; lia).
  pose proof (substring_length_le (Z.to_nat 0)
                (Z.to_nat (Z.min k (len s) - 0)) s) as [_ H].
  lia.
Qed.

Lemma slice_head_length {A} (l : list A) (k : Z) :
  0 <= k -> (List.length (slice l None (Some k)) <= Z.to_nat k)%nat.
Proof using Type.
  intros Hk. unfold slice, slice_bounds, slice_bound.
  replace (k <? 0) with false by (symmetry; apply Z.ltb_ge; lia).
  rewrite length_firstn. lia.
Qed.

Lemma concat_length_le (sep : string) (m : nat) (l : list string) :
  Forall (fun s => String.length s <= m)%nat l ->
  (String.length (String.concat sep l) + String.length sep
   <= Nat.max 1 (List.length l) * (m + String.length sep))%nat.
Proof using Type.
  induction 1 as [| s l Hs Hl IH]; [simpl; lia |].
  destruct l as [| s' l]; [simpl in *; lia |].
  change (String.concat sep (s :: s' :: l))
    with (s ++ sep ++ String.concat sep (s' :: l)).
  rewrite !length_app. cbn [List.length] in *. lia.
Qed.

(** X13 ([_summarize_messages], the [except] branch): when the language
    model call fails, the summary is the local one, built from at most
    the first three messages cut to 50 characters each, and so it is
    never longer than 187 characters, whatever the conversation. *)
Theorem failed_summary_is_short (messages : list Message) (limit : Z)
        (e : exn) :
  chat_completions_create (conversation_text messages) limit = Fails e ->
  _summarize_messages chat_completions_create messages limit
  = fallback_summary messages
  /\ len (fallback_summary messages) <= 187.
Proof using Type.
  intros Hfail. unfold _summarize_messages. rewrite Hfail.
  split; [reflexivity |]. unfold fallback_summary, len.
  rewrite !length_app.
  set (parts := map _ (slice messages None (Some 3))).
  assert (Hparts : Forall (fun s => String.length s <= 50)%nat parts).
  { unfold parts. apply Forall_forall. intros s Hs.
    apply in_map_iff in Hs. destruct Hs as (msg & <- & _).
    apply (str_slice_head_length (content msg) 50). lia. }
  assert (Hcount : (List.length parts <= 3)%nat).
  { unfold parts. rewrite length_map.
    apply (slice_head_length messages 3). lia. }
  pose proof (concat_length_le ", " 50 parts Hparts) as Hlen.
  cbn [String.length] in *. nia.
Qed.

Lemma prefix_of_substring (n : nat) (s : string) :
  prefix (substring 0 n s) s = true.
Proof using Type.
  revert n. induction s as [| c s IH]; intros [| n]; simpl; auto.
  destruct (ascii_dec c c); [apply IH | congruence].
Qed.

(** What [_compress_context] can give. *)
Lemma compress_context_cases (context : string) (limit : Z) :
  match _compress_context encode float_truncate_at context limit with
  | Return compressed =>
      (count_tokens encode context <= limit /\ compressed = context)
      \/ (limit < count_tokens encode context
          /\ exists kept,
              prefix kept context = true
              /\ compressed = kept ++ truncation_marker)
  | Raise e =>
      count_tokens encode context = 0 /\ limit < 0
      /\ e = ZeroDivisionError "division by zero"
  | OutOfFuel => False
  end.
Proof using Type.
  unfold _compress_context. cbv zeta.
  destruct (Z.leb_spec (count_tokens encode context) limit) as [Hfit | Hover].
  - now left.
  - destruct (Z.eqb_spec (count_tokens encode context) 0) as [Hz | Hnz].
    + repeat split; lia.
    + right. split; [exact Hover |]. eexists. split; [| reflexivity].
      unfold str_slice, slice_bounds. cbn [Z.to_nat].
      apply prefix_of_substring.
Qed.

(** X14 ([_compress_context]): a context within the limit comes back
    unchanged; a longer one comes back as a beginning of itself followed
    by the truncation marker; the only failure is a division by zero,
    for a context without tokens under a negative limit. *)
Theorem compress_context_shape (context : string) (limit : Z) :
  (forall compressed,
      _compress_context encode float_truncate_at context limit
      = Return compressed ->
      (count_tokens encode context <= limit /\ compressed = context)
      \/ (limit < count_tokens encode context
          /\ exists kept,
              prefix kept context = true
              /\ compressed = kept ++ truncation_marker))
  /\ ((exists e,
          _compress_context encode float_truncate_at context limit
          = Raise e)
      <-> count_tokens encode context = 0 /\ limit < 0)
  /\ _compress_context encode float_truncate_at context limit <> OutOfFuel.
Proof using Type.
  pose proof (compress_context_cases context limit) as H.
  split; [| split].
  - intros c E. now rewrite E in H.
  - split.
    + intros [e E]. rewrite E in H. destruct H as (Hz & Hneg & _).
      split; assumption.
    + intros [Hz Hneg]. unfold _compress_context. cbv zeta.
      replace (count_tokens encode context <=? limit) with false
        by (symmetry; apply Z.leb_gt; lia).
      rewrite Hz. cbn [Z.eqb]. eauto.
  - intros E. now rewrite E in H.
Qed.

(** The messages selected are all of them or the recent ones. *)
Lemma select_messages_choice (messages : list Message)
      (additional_context : option string) (preserve_recent : Z) :
  fst (fst (select_messages encode max_tokens chat_completions_create
              messages additional_context preserve_recent))
  = messages
  \/ (older_of messages preserve_recent <> []
      /\ fst (fst (select_messages encode max_tokens
                     chat_completions_create messages additional_context
                     preserve_recent))
         = recent_of messages preserve_recent).
Proof using Type.
  unfold select_messages. cbv zeta.
  pose proof (older_recent_split messages preserve_recent) as Hsplit.
  destruct (older_of messages preserve_recent) as [| m older] eqn:Eo.
  - left. rewrite andb_false_r. exact Hsplit.
  - destruct (_ && _); [destruct (_ <=? _) |]; cbn [fst];
      auto; right; split; auto; discriminate.
Qed.

Lemma optimize_context_selected (messages : list Message)
      (additional_context : option string) (preserve_recent : Z)
      (selected : list Message) (context : string) (total_tokens : Z) :
  optimize_context encode max_tokens chat_completions_create
    float_truncate_at messages additional_context preserve_recent
  = Return (selected, context, total_tokens) ->
  selected
  = fst (fst (select_messages encode max_tokens chat_completions_create
                messages additional_context preserve_recent))
  \/ (messages = [] /\ selected = []).
Proof using Type.
  unfold optimize_context. destruct messages as [| m messages];
    cbn [is_nil].
  - intros E. injection E as <- _ _. now right.
  - destruct (select_messages _ _ _ _ _ _) as [[om cs] tt]. cbn [fst].
    destruct (_ && _).
    + destruct (_compress_context _ _ _ _); cbn [bind]; try discriminate.
      intros E. injection E as <- _ _. now left.
    + intros E. injection E as <- _ _. now left.
Qed.

(** X15 ([optimize_context]): the messages returned are always the input
    messages with some of the oldest left out: nothing is reordered or
    altered, and what is left out is nothing or exactly the messages
    older than the recent ones. *)
Theorem optimize_context_keeps_a_suffix (messages : list Message)
        (additional_context : option string) (preserve_recent : Z)
        (selected : list Message) (context : string) (total_tokens : Z) :
  optimize_context encode max_tokens chat_completions_create
    float_truncate_at messages additional_context preserve_recent
  = Return (selected, context, total_tokens) ->
  exists dropped,
    messages = (dropped ++ selected)%list
    /\ (dropped = [] \/ dropped = older_of messages preserve_recent).
Proof using Type.
  intros E. apply optimize_context_selected in E.
  destruct E as [-> | [-> ->]]; [| exists []; auto].
  destruct (select_messages_choice messages additional_context
              preserve_recent) as [-> | [_ ->]].
  - exists []. auto.
  - exists (older_of messages preserve_recent).
    split; [symmetry; apply older_recent_split | now right].
Qed.

(** X16 ([optimize_context]): with a tokenizer that gives every text
    that is not empty at least one token, [optimize_context] never
    raises: it returns for every conversation, context and
    [preserve_recent]. *)
Theorem optimize_context_always_returns (messages : list Message)
        (additional_context : option string) (preserve_recent : Z) :
  (forall text, text <> "" -> encode text <> []) ->
  exists result,
    optimize_context encode max_tokens chat_completions_create
      float_truncate_at messages additional_context preserve_recent
    = Return result.
Proof using Type.
  intros Hpositive. unfold optimize_context.
  destruct messages as [| m messages]; cbn [is_nil]; [eauto |].
  destruct (select_messages _ _ _ _ _ _) as [[om cs] tt].
  destruct (_ && truthy_opt additional_context) eqn:Hc; [| eauto].
  apply andb_prop in Hc. destruct Hc as [_ Htruthy].
  pose proof (compress_context_cases (or_empty additional_context)
                (max_tokens - count_messages_tokens encode om)) as Hshape.
  destruct (_compress_context _ _ _ _) as [c | e |]; cbn [bind];
    [eauto | | contradiction].
  destruct Hshape as (Hzero & _). exfalso.
  destruct additional_context as [[| c s] |]; try discriminate.
  cbn [or_empty] in Hzero. unfold count_tokens in Hzero.
  specialize (Hpositive (String c s) ltac:(discriminate)).
  destruct (encode (String c s)); [congruence | cbn in Hzero; lia].
Qed.

(** X17 ([optimize_context]): with [preserve_recent = 0], or at least as
    large as the conversation, no message is ever left out or
    summarised: all messages come back, and the context returned is the
    additional context, whole or truncated, without a summary in front. *)
Theorem nothing_dropped_without_older_messages (messages : list Message)
        (additional_context : option string) (preserve_recent : Z)
        (selected : list Message) (context : string) (total_tokens : Z) :
  preserve_recent = 0
  \/ Z.of_nat (List.length messages) <= preserve_recent ->
  optimize_context encode max_tokens chat_completions_create
    float_truncate_at messages additional_context preserve_recent
  = Return (selected, context, total_tokens) ->
  selected = messages
  /\ (context = or_empty additional_context
      \/ exists kept,
          prefix kept (or_empty additional_context) = true
          /\ context = kept ++ truncation_marker).
Proof using Type.
  intros Hpr.
  assert (Hold : older_of messages preserve_recent = []).
  { unfold older_of.
    destruct (Z.gtb_spec (Z.of_nat (List.length messages)) preserve_recent)
      as [Hgt | Hle]; [| reflexivity].
    destruct Hpr as [-> | Hpr]; [| lia].
    unfold slice, slice_bounds, slice_bound. cbn [Z.opp Z.ltb Z.compare].
    rewrite Z.min_l by lia. reflexivity. }
  pose proof (older_recent_split messages preserve_recent) as Hsplit.
  rewrite Hold in Hsplit. cbn [app] in Hsplit.
  unfold optimize_context. destruct messages as [| m messages];
    cbn [is_nil].
  - intros E. injection E as <- <- _. auto.
  - unfold select_messages. cbv zeta. rewrite Hold, Hsplit.
    cbn [is_nil negb]. rewrite andb_false_r.
    destruct (_ && truthy_opt additional_context).
    + pose proof (compress_context_cases (or_empty additional_context)
                    (max_tokens - count_messages_tokens encode (m :: messages)))
        as Hshape.
      destruct (_compress_context _ _ _ _) as [c | e |]; cbn [bind];
        try discriminate.
      intros E. injection E as <- <- _. split; [reflexivity |].
      change (match c with "" => "" | String c0 r => String c0 r end)
        with (or_empty (Some c)).
      rewrite or_empty_some.
      destruct Hshape as [[_ ->] | [_ (kept & Hk & ->)]]; eauto.
    + intros E. injection E as <- <- _. auto.
Qed.

End Manager.

Lemma failed_summary_is_short_witness :
  _summarize_messages llm_down long_talk 100 = fallback_summary long_talk
  /\ len (fallback_summary long_talk) <= 187.
Proof.
  exact (failed_summary_is_short llm_down long_talk 100 _ eq_refl).
Defined.

Lemma compress_context_shape_witness :
  (count_tokens char_encode small_context <= 10
   /\ str_slice small_context None (Some 3) ++ truncation_marker
      = small_context)
  \/ (10 < count_tokens char_encode small_context
      /\ exists kept,
          prefix kept small_context = true
          /\ str_slice small_context None (Some 3) ++ truncation_marker
             = kept ++ truncation_marker).
Proof.
  apply (compress_context_shape char_encode (fun _ _ _ => 3) small_context
           10).
  reflexivity.
Defined.

Lemma optimize_context_keeps_a_suffix_witness :
  exists dropped,
    long_talk = (dropped ++ tl long_talk)%list
    /\ (dropped = [] \/ dropped = older_of long_talk 3).
Proof.
  exact (optimize_context_keeps_a_suffix char_encode 4000 llm_fixed
           exact_truncate_at long_talk None 3 (tl long_talk) "" 4224
           ltac:(vm_compute; reflexivity)).
Defined.

Lemma char_encode_positive (text : string) :
  text <> "" -> char_encode text <> [].
Proof. destruct text; [congruence | discriminate]. Defined.

Lemma optimize_context_always_returns_witness :
  exists result,
    optimize_context char_encode 4000 llm_down exact_truncate_at long_talk
      (Some big_context) 3
    = Return result.
Proof.
  exact (optimize_context_always_returns char_encode 4000 llm_down
           exact_truncate_at long_talk (Some big_context) 3
           char_encode_positive).
Defined.

Lemma nothing_dropped_without_older_messages_witness :
  short_talk = short_talk
  /\ (small_context = or_empty (Some small_context)
      \/ exists kept,
          prefix kept (or_empty (Some small_context)) = true
          /\ small_context = kept ++ truncation_marker).
Proof.
  exact (nothing_dropped_without_older_messages char_encode 4000 llm_down
           exact_truncate_at short_talk (Some small_context) 0 short_talk
           small_context 86 (or_introl eq_refl)
           ltac:(vm_compute; reflexivity)).
Defined.

End ContextExtras.

(** ** More on the search coordinator *)

Module SearchExtras.

Import Models HybridSearch Scenarios Shapes SearchFacts.

Section Engine.

Variable embedding_model : string.
Variable embeddings_create : string -> string -> reply (list (list number)).
Variable documents_search : string -> SearchParams -> reply SearchResponse.
Variable documents_upsert : string -> IndexedDocument -> reply unit.
Variables (query : string) (strategy : SearchStrategy) (max_results : Z).
Variables (keyword_weight semantic_weight : number).
Variable document_filter : option string.

(** X18 ([hybrid_search]): [keyword_weight] has no effect on what
    [hybrid_search] sends or returns, under any strategy, and
    [semantic_weight] has none outside the HYBRID strategy. *)
Theorem weights_without_effect (keyword_weight' semantic_weight' : number) :
  hybrid_search embedding_model embeddings_create documents_search query
    strategy max_results keyword_weight semantic_weight document_filter
  = hybrid_search embedding_model embeddings_create documents_search query
      strategy max_results keyword_weight' semantic_weight document_filter
  /\ (strategy <> HYBRID ->
      hybrid_search embedding_model embeddings_create documents_search query
        strategy max_results keyword_weight semantic_weight document_filter
      = hybrid_search embedding_model embeddings_create documents_search
          query strategy max_results keyword_weight' semantic_weight'
          document_filter).
Proof using Type.
  split; [reflexivity |].
  intros Hs. destruct strategy; [reflexivity | reflexivity | congruence].
Qed.

(** X19 ([hybrid_search]): one invocation calls the embedding service
    once, first, and then the index at most once; the query it sends
    searches the field "content", asks for [max_results] hits per page
    and is restricted to the document of [document_filter] exactly when
    that filter is given and not empty. *)
Theorem search_calls_shape :
  fst (hybrid_search embedding_model embeddings_create documents_search
         query strategy max_results keyword_weight semantic_weight
         document_filter)
  = [EmbeddingsCreate embedding_model query]
  \/ exists p,
      fst (hybrid_search embedding_model embeddings_create documents_search
             query strategy max_results keyword_weight semantic_weight
             document_filter)
      = [EmbeddingsCreate embedding_model query;
         DocumentsSearch COLLECTION_NAME p]
      /\ query_by p = "content"
      /\ per_page p = max_results
      /\ filter_by p
         = match document_filter with
           | Some (String c d) => Some ("document_id:=" ++ String c d)
           | _ => None
           end.
Proof using Type.
  destruct (embedding_cases embedding_model embeddings_create query)
    as [(e & rest & He) | Hno].
  - right. rewrite (hybrid_search_embedded _ _ _ _ _ _ _ _ _ e rest He).
    cbv zeta. cbn [fst]. eexists. split; [reflexivity |].
    destruct strategy; cbn; repeat split;
      destruct document_filter as [[| c d] |]; reflexivity.
  - left. now rewrite hybrid_search_not_embedded by exact Hno.
Qed.

(** X20 ([hybrid_search], the formatting loop): the hits of an answer are
    formatted all or none: when every hit has its document with the keys
    [id], [document_id], [document_name] and [content], there is one
    result per hit, in order, carrying those fields; when a single hit
    lacks one of them, the result is empty. *)
Theorem results_are_all_or_nothing (e : list number)
        (rest : list (list number)) (resp : SearchResponse) :
  embeddings_create embedding_model query = Ok (e :: rest) ->
  documents_search COLLECTION_NAME
    (configure strategy (base_params query max_results document_filter)
       e max_results semantic_weight)
  = Ok resp ->
  if forallb complete_hit (get_default (hits resp) [])
  then exists results,
      snd (hybrid_search embedding_model embeddings_create documents_search
             query strategy max_results keyword_weight semantic_weight
             document_filter)
      = Return results
      /\ Forall2 formatted_from (get_default (hits resp) []) results
  else snd (hybrid_search embedding_model embeddings_create
              documents_search query strategy max_results keyword_weight
              semantic_weight document_filter)
       = Return [].
Proof using Type.
  intros He Hs.
  rewrite (hybrid_search_embedded _ _ _ _ _ _ _ _ _ e rest He).
  cbv zeta. cbn [snd]. rewrite Hs. cbn [call bind].
  pose proof (format_hits_all_or_nothing (get_default (hits resp) []))
    as Hall.
  destruct (forallb complete_hit (get_default (hits resp) [])).
  - destruct Hall as (rs & -> & Hrs). exists rs.
    split; [reflexivity | exact Hrs].
  - destruct Hall as (key & ->). reflexivity.
Qed.

Lemma index_document_chunk_returns
      (chunk_id doc_id doc_name text : string) (chunk_index : Z)
      (page_number : option Z) :
  exists indexed,
    snd (index_document_chunk embedding_model embeddings_create
           documents_upsert chunk_id doc_id doc_name text chunk_index
           page_number)
    = Return indexed.
Proof using Type.
  unfold index_document_chunk, index_document_chunk_try.
  destruct (embeddings_create embedding_model text) as [[| emb rest] | x];
    cbn [call bind first_embedding fst snd try_except]; eauto.
  destruct (documents_upsert COLLECTION_NAME _) as [[] | x];
    cbn [call bind try_except]; eauto.
Qed.

(** X21 ([index_document_chunk]): indexing a chunk never raises; it
    answers [True] exactly when the embedding service gave an embedding
    and the index accepted the document; the index is contacted only
    after the embedding, and the document sent carries the chunk's
    fields, the first embedding of the answer and the page number as it
    was given. *)
Theorem index_document_chunk_reports_success
        (chunk_id doc_id doc_name text : string) (chunk_index : Z)
        (page_number : option Z) :
  exists indexed,
    snd (index_document_chunk embedding_model embeddings_create
           documents_upsert chunk_id doc_id doc_name text chunk_index
           page_number)
    = Return indexed
    /\ (indexed = true <->
        exists embedding rest,
          embeddings_create embedding_model text = Ok (embedding :: rest)
          /\ documents_upsert COLLECTION_NAME
               {| idx_id := chunk_id; idx_document_id := doc_id;
                  idx_document_name := doc_name; idx_content := text;
                  idx_chunk_index := chunk_index;
                  idx_embedding := embedding;
                  idx_page_number := page_number |}
             = Ok tt)
    /\ forall collection document,
        In (DocumentsUpsert collection document)
           (fst (index_document_chunk embedding_model embeddings_create
                   documents_upsert chunk_id doc_id doc_name text
                   chunk_index page_number)) ->
        collection = COLLECTION_NAME
        /\ (exists rest,
               embeddings_create embedding_model text
               = Ok (idx_embedding document :: rest))
        /\ idx_id document = chunk_id
        /\ idx_content document = text
        /\ idx_page_number document = page_number.
Proof using Type.
  unfold index_document_chunk, index_document_chunk_try.
  destruct (embeddings_create embedding_model text) as [[| emb rest] | x]
    eqn:He; cbn [call bind first_embedding fst snd try_except].
  - exists false. split; [reflexivity |]. split.
    + split; [discriminate | intros (a & b & E & _); discriminate].
    + intros c d [E | []]. discriminate.
  - destruct (documents_upsert COLLECTION_NAME _) as [[] | x] eqn:Hu;
      cbn [call bind try_except].
    + exists true. split; [reflexivity |]. split.
      * split; [intros _ | reflexivity]. exists emb, rest. auto.
      * intros c d [E | [E | []]]; [discriminate |].
        injection E as <- <-. cbn. repeat split. eauto.
    + exists false. split; [reflexivity |]. split.
      * split; [discriminate |].
        intros (a & b & E & Hok). injection E as <- <-. congruence.
      * intros c d [E | [E | []]]; [discriminate |].
        injection E as <- <-. cbn. repeat split. eauto.
  - exists false. split; [reflexivity |]. split.
    + split; [discriminate | intros (a & b & E & _); discriminate].
    + intros c d [E | []]. discriminate.
Qed.

End Engine.

Lemma weights_without_effect_witness :
  hybrid_search default_embedding_model embed_ok index_ok
    "what is a transformer" SEMANTIC 10 (1 # 2) (1 # 2) None
  = hybrid_search default_embedding_model embed_ok index_ok
      "what is a transformer" SEMANTIC 10 (9 # 10) (1 # 10) None.
Proof.
  apply (weights_without_effect default_embedding_model embed_ok index_ok
           "what is a transformer" SEMANTIC 10 (1 # 2) (1 # 2) None
           (9 # 10) (1 # 10)).
  discriminate.
Defined.

Lemma results_are_all_or_nothing_witness :
  snd (hybrid_search default_embedding_model embed_ok index_with_gap
         "what is a transformer" KEYWORD 10 (1 # 2) (1 # 2) None)
  = Return [].
Proof.
  exact (results_are_all_or_nothing default_embedding_model embed_ok
           index_with_gap "what is a transformer" KEYWORD 10 (1 # 2)
           (1 # 2) None [1 # 10; 2 # 10; 3 # 10] [] _ eq_refl eq_refl).
Defined.

(** X22 ([get_search_engine]): once an engine has been built, every
    later call returns that same engine and builds nothing; while the
    constructor fails, the exception reaches the caller, no engine is
    kept, and the next call tries again. *)
Theorem search_engine_is_built_once (Engine : Type)
        (construct : nat -> reply Engine) (n attempt : nat) :
  (forall engine,
      get_search_engine_times Engine construct n attempt (Some engine)
      = (repeat (Return engine) n, (attempt, Some engine)))
  /\ (forall engine,
         construct attempt = Ok engine ->
         get_search_engine_times Engine construct (S n) attempt None
         = (repeat (Return engine) (S n), (S attempt, Some engine)))
  /\ (forall e,
         construct attempt = Fails e ->
         get_search_engine Engine construct attempt None
         = (Raise e, (S attempt, None))).
Proof.
  assert (Hkept : forall k engine,
             get_search_engine_times Engine construct k attempt (Some engine)
             = (repeat (Return engine) k, (attempt, Some engine))).
  { induction k as [| k IH]; intros engine; [reflexivity |].
    cbn [get_search_engine_times get_search_engine repeat].
    now rewrite IH. }
  split; [apply Hkept |]. split.
  - intros engine Hok. cbn [get_search_engine_times get_search_engine].
    rewrite Hok.
    assert (Hnext : forall k,
               get_search_engine_times Engine construct k (S attempt)
                 (Some engine)
               = (repeat (Return engine) k, (S attempt, Some engine))).
    { induction k as [| k IH]; [reflexivity |].
      cbn [get_search_engine_times get_search_engine repeat].
      now rewrite IH. }
    now rewrite Hnext.
  - intros e Hfail. cbn [get_search_engine]. now rewrite Hfail.
Qed.

Lemma search_engine_is_built_once_witness :
  get_search_engine_times nat construct_third 3 2 None
  = (repeat (Return 2%nat) 3, (3%nat, Some 2%nat))
  /\ get_search_engine nat construct_third 0 None
     = (Raise (ServiceError "index unavailable"), (1%nat, None)).
Proof.
  split.
  - apply (search_engine_is_built_once nat construct_third 2 2).
    reflexivity.
  - apply (search_engine_is_built_once nat construct_third 0 0).
    reflexivity.
Defined.

End SearchExtras.

(** ** The upload route *)

Module UploadExtras.

Import DocumentProcessor Main PyFacts StringFacts ChunkerFacts.

Lemma last_field_plain (sep : ascii) (s : string) :
  forall field,
    contains (String sep "") s = false ->
    last_field sep s field = field ++ s.
Proof.
  induction s as [| c s IH]; intros field; cbn [last_field contains prefix].
  - intros _. clear. induction field; simpl; [reflexivity | now f_equal].
  - destruct (ascii_dec sep c) as [-> | Hne].
    + destruct s; discriminate.
    + cbn [orb]. intros Hs.
      replace (Ascii.eqb c sep) with false
        by (symmetry; apply Ascii.eqb_neq; congruence).
      rewrite IH by exact Hs. clear.
      induction field; simpl; [reflexivity | now f_equal].
Qed.

Lemma last_field_after (sep : ascii) (a b : string) :
  forall field,
    last_field sep (a ++ String sep b) field = last_field sep b "".
Proof.
  induction a as [| c a IH]; intros field; cbn [append last_field].
  - now rewrite Ascii.eqb_refl.
  - destruct (Ascii.eqb c sep); apply IH.
Qed.

(** X23 ([upload_document], the extension): the file type is read from
    what follows the last dot of the file name, in lower case, and from
    the whole name when it has no dot. *)
Theorem file_ext_reads_last_component (base ext : string) :
  contains "." ext = false ->
  file_ext (base ++ "." ++ ext) = "." ++ lower ext
  /\ file_ext ext = "." ++ lower ext.
Proof.
  intros Hdot. unfold file_ext. split.
  - change ("." ++ ext) with (String "." ext).
    rewrite last_field_after, last_field_plain by exact Hdot. reflexivity.
  - rewrite last_field_plain by exact Hdot. reflexivity.
Qed.

Lemma file_ext_reads_last_component_witness :
  file_ext ("archive.tar" ++ "." ++ "PDF") = "." ++ lower "PDF"
  /\ file_ext "PDF" = "." ++ lower "PDF".
Proof.
  exact (file_ext_reads_last_component "archive.tar" "PDF" eq_refl).
Defined.

Section Upload.

Variables chunk_size chunk_overlap : Z.
Variable decode : list byte -> string.
Variable PDF_AVAILABLE : bool.
Variable PdfReader : list byte -> reply (list (reply string)).
Variable file_name : string.
Variable file_content_type : option string.
Variable file_read : reply (list byte).
Variable database : list DbCall -> DbCall -> reply unit.
Variable new_document_id : string.
Variable new_chunk_id : Z -> string.
Variable search_engine : reply unit.
Variable embedding_model : string.
Variable embeddings_create
  : string -> string -> reply (list (list HybridSearch.number)).
Variable documents_upsert
  : string -> HybridSearch.IndexedDocument -> reply unit.

(** X24 ([upload_document]): a file whose type is not one of txt, md,
    text, markdown and pdf is refused with status 400 before the file is
    read and before the database is touched. *)
Theorem unsupported_type_is_rejected_first (fuel : nat) :
  mem (file_ext file_name) allowed_extensions = false ->
  upload_document chunk_size chunk_overlap decode PDF_AVAILABLE PdfReader
    file_name file_content_type file_read database new_document_id
    new_chunk_id search_engine embedding_model embeddings_create
    documents_upsert fuel
  = ([],
     HTTPException 400
       "Unsupported file type. Allowed: .txt, .md, .text, .markdown, .pdf").
Proof using Type.
  intros Hext. unfold upload_document, upload_document_try.
  cbv zeta. rewrite Hext. reflexivity.
Qed.

(** The indexing loop adds and flushes, and never counts more chunks
    than it was given. *)
Lemma index_chunks_run (chunks : list Chunk) :
  forall indexed_count calls,
  exists added st,
    index_chunks file_name database new_document_id new_chunk_id
      embedding_model embeddings_create documents_upsert chunks
      indexed_count calls
    = ((calls ++ added)%list, st)
    /\ forallb pending added = true
    /\ (forall m, st = Done m ->
                  indexed_count <= m
                  <= indexed_count + Z.of_nat (List.length chunks))
    /\ (forall s d, st <> Http s d).
Proof using Type.
  induction chunks as [| chunk_data chunks IH]; intros n calls.
  - exists [], (Done n). cbn [index_chunks ret]. rewrite app_nil_r.
    split; [reflexivity |]. split; [reflexivity |]. split.
    + intros m E. injection E as <-. cbn [List.length]. lia.
    + discriminate.
  - cbn [index_chunks]. unfold then_ at 1. unfold db at 1.
    destruct (database calls _) as [[] | e].
    + unfold then_ at 1. unfold db at 1.
      destruct (database _ DbFlush) as [[] | e].
      * unfold then_ at 1. unfold lift at 1.
        destruct (SearchExtras.index_document_chunk_returns
                    embedding_model embeddings_create documents_upsert
                    (new_chunk_id (chunk_index chunk_data))
                    new_document_id file_name (content chunk_data)
                    (chunk_index chunk_data) (page_number chunk_data))
          as (b & ->).
        match goal with
        | |- context [index_chunks _ _ _ _ _ _ _ chunks ?n' ?c'] =>
            destruct (IH n' c') as (added & st & -> & Hp & Hm & Hh)
        end.
        eexists. exists st. rewrite <- !app_assoc. split; [reflexivity |].
        cbn [app forallb pending andb]. split; [exact Hp |].
        split; [| exact Hh].
        intros m E. specialize (Hm m E). cbn [List.length].
        destruct b; lia.
      * eexists. eexists. rewrite <- app_assoc.
        split; [reflexivity |]. split; [reflexivity |].
        split; discriminate.
    + eexists. eexists. split; [reflexivity |]. split; [reflexivity |].
      split; discriminate.
Qed.

Lemma text_kind_is_allowed (ext : string) :
  mem ext [".txt"; ".md"; ".text"; ".markdown"] = true ->
  mem ext allowed_extensions = true /\ String.eqb ext ".pdf" = false.
Proof using Type.
  unfold mem, allowed_extensions. cbn [existsb].
  intros H. repeat (apply orb_true_iff in H; destruct H as [H | H]);
    try discriminate; apply String.eqb_eq in H; subst ext; split;
    reflexivity.
Qed.

Lemma text_processors_refuse_long_text (fuel : nat)
      (content_bytes : list byte) (ext : string) :
  0 < chunk_size -> chunk_size < len (strip (decode content_bytes)) ->
  (if mem ext [".md"; ".markdown"]
   then process_markdown_file chunk_size chunk_overlap decode (S fuel)
          content_bytes file_name
   else process_text_file chunk_size chunk_overlap decode (S fuel)
          content_bytes file_name)
  = Return [].
Proof using Type.
  intros Hcs Hlong.
  assert (H : process_text_file chunk_size chunk_overlap decode (S fuel)
                content_bytes file_name = Return []).
  { unfold process_text_file.
    rewrite chunk_text_long_raises by assumption. reflexivity. }
  unfold process_markdown_file. now destruct (mem ext _).
Qed.

(** X25 ([upload_document] with [process_text_file]): with a positive
    [chunk_size], the upload of a text or markdown file whose text is
    longer than [chunk_size] after trimming is answered with status 400,
    "Failed to process document": the document row has been added and
    flushed, nothing is indexed, committed or rolled back. *)
Theorem long_text_upload_is_refused (fuel : nat)
        (content_bytes : list byte) :
  mem (file_ext file_name) [".txt"; ".md"; ".text"; ".markdown"] = true ->
  file_read = Ok content_bytes ->
  (forall calls c, pending c = true -> database calls c = Ok tt) ->
  0 < chunk_size -> chunk_size < len (strip (decode content_bytes)) ->
  upload_document chunk_size chunk_overlap decode PDF_AVAILABLE PdfReader
    file_name file_content_type file_read database new_document_id
    new_chunk_id search_engine embedding_model embeddings_create
    documents_upsert (S fuel)
  = ([DbAddDocument file_name
        (if truthy_opt file_content_type
         then or_empty file_content_type else "text/plain")
        (Z.of_nat (List.length content_bytes));
      DbFlush],
     HTTPException 400 "Failed to process document").
Proof using Type.
  intros Hext Hread Hdb Hcs Hlong.
  destruct (text_kind_is_allowed _ Hext) as [Hallowed Hnotpdf].
  unfold upload_document, upload_document_try. cbv zeta.
  rewrite Hallowed, Hread, Hnotpdf. cbn [negb].
  unfold then_, lift, db, call, raise_http. cbv beta iota.
  rewrite !Hdb by reflexivity. cbv beta iota.
  rewrite (text_processors_refuse_long_text fuel content_bytes _ Hcs Hlong).
  reflexivity.
Qed.

(** X26 ([upload_document] with [process_pdf_file]): when the PDF
    processor raises, be it on a file that is no PDF or on a text longer
    than one chunk, the upload is rolled back and answered with status
    500 and the processor's message behind "Upload failed: ". *)
Theorem failed_pdf_upload_is_rolled_back (fuel : nat)
        (content_bytes : list byte) (msg : string) :
  file_ext file_name = ".pdf" ->
  file_read = Ok content_bytes ->
  (forall calls c, database calls c = Ok tt) ->
  process_pdf_file chunk_size chunk_overlap PDF_AVAILABLE PdfReader fuel
    content_bytes file_name
  = Raise (ValueError msg) ->
  upload_document chunk_size chunk_overlap decode PDF_AVAILABLE PdfReader
    file_name file_content_type file_read database new_document_id
    new_chunk_id search_engine embedding_model embeddings_create
    documents_upsert fuel
  = ([DbAddDocument file_name
        (if truthy_opt file_content_type
         then or_empty file_content_type else "text/plain")
        (Z.of_nat (List.length content_bytes));
      DbFlush; DbRollback],
     HTTPException 500 ("Upload failed: " ++ msg)).
Proof using Type.
  intros Hext Hread Hdb Hraise.
  unfold upload_document, upload_document_try. cbv zeta.
  rewrite Hext, Hread. cbn [mem allowed_extensions existsb String.eqb
                            Ascii.eqb Bool.eqb orb negb andb].
  unfold then_, lift, db, call. cbv beta iota.
  rewrite !Hdb. cbv beta iota. rewrite Hraise. cbv beta iota.
  rewrite Hdb. reflexivity.
Qed.

Lemma format_chunks_length (mk : Z -> string -> Chunk)
      (chunks : list string) :
  forall i, List.length (format_chunks mk i chunks) = List.length chunks.
Proof using Type.
  induction chunks as [| c chunks IH]; intros i; cbn; [| rewrite IH];
    reflexivity.
Qed.

(** No processor hands back more than one chunk. *)
Lemma processors_return_at_most_one_chunk (fuel : nat)
      (content_bytes : list byte) (ext : string) (chunks : list Chunk) :
  (if String.eqb ext ".pdf" then
     process_pdf_file chunk_size chunk_overlap PDF_AVAILABLE PdfReader fuel
       content_bytes file_name
   else if mem ext [".md"; ".markdown"] then
     process_markdown_file chunk_size chunk_overlap decode fuel
       content_bytes file_name
   else
     process_text_file chunk_size chunk_overlap decode fuel content_bytes
       file_name)
  = Return chunks ->
  (List.length chunks <= 1)%nat.
Proof using Type.
  assert (Htext : process_text_file chunk_size chunk_overlap decode fuel
                    content_bytes file_name = Return chunks ->
                  (List.length chunks <= 1)%nat).
  { unfold process_text_file.
    destruct (_chunk_text chunk_size chunk_overlap fuel
                (decode content_bytes)) as [texts | e |] eqn:E;
      cbn [bind try_except]; try discriminate.
    - intros H. injection H as <-. rewrite format_chunks_length.
      destruct (chunk_text_returns _ _ _ _ _ E) as [[_ ->] | ->];
        cbn; lia.
    - intros H. injection H as <-. cbn. lia. }
  destruct (String.eqb ext ".pdf").
  - unfold process_pdf_file. destruct PDF_AVAILABLE; cbn [negb];
      [| discriminate].
    destruct (PdfReader content_bytes) as [pages | e]; cbn [call bind];
      [| discriminate].
    destruct (extract_pages pages 1 "" []) as [full_text page_texts].
    destruct (truthy (strip full_text)); cbn [negb].
    + destruct (_chunk_text chunk_size chunk_overlap fuel
                  (strip full_text)) as [texts | e |] eqn:E;
        cbn [bind try_except]; try discriminate.
      intros H. injection H as <-. rewrite format_chunks_length.
      destruct (chunk_text_returns _ _ _ _ _ E) as [[_ ->] | ->];
        cbn; lia.
    + cbn [try_except]. intros H. injection H as <-. cbn. lia.
  - unfold process_markdown_file. destruct (mem ext _); exact Htext.
Qed.

(** How the body of the [try] block ends, with the database calls it
    made: the commit is its last call, made after calls that neither
    commit nor roll back; it ends with a response when the commit
    returned, and with the commit's exception when the commit raised. *)
Lemma upload_document_try_run (fuel : nat) :
  exists calls st,
    upload_document_try chunk_size chunk_overlap decode PDF_AVAILABLE
      PdfReader file_name file_content_type file_read database
      new_document_id new_chunk_id search_engine embedding_model
      embeddings_create documents_upsert fuel []
    = (calls, st)
    /\ match st with
       | Done r =>
           (exists before,
               calls = (before ++ [DbCommit])%list
               /\ forallb pending before = true
               /\ database before DbCommit = Ok tt)
           /\ document_id r = new_document_id
           /\ filename r = file_name
           /\ 0 <= chunks_created r <= 1
           /\ message r
              = "Document uploaded and processed into "
                ++ str_int (chunks_created r) ++ " chunks"
       | Http status _ => status = 400 /\ forallb pending calls = true
       | Exc e =>
           forallb pending calls = true
           \/ exists attempted,
               calls = (attempted ++ [DbCommit])%list
               /\ forallb pending attempted = true
               /\ database attempted DbCommit = Fails e
       | Stuck => forallb pending calls = true
       end.
Proof using Type.
  unfold upload_document_try. cbv zeta.
  destruct (negb (mem (file_ext file_name) allowed_extensions)).
  { eexists. eexists. split; [reflexivity |]. split; reflexivity. }
  unfold then_ at 1. unfold lift at 1, call at 1.
  destruct file_read as [content_bytes | e].
  2: { eexists. eexists. split; [reflexivity |]. now left. }
  unfold then_ at 1. unfold db at 1. cbn [app].
  destruct (database [] _) as [[] | e].
  2: { eexists. eexists. split; [reflexivity |]. now left. }
  unfold then_ at 1. unfold db at 1. cbn [app].
  destruct (database _ DbFlush) as [[] | e].
  2: { eexists. eexists. split; [reflexivity |]. now left. }
  unfold then_ at 1. unfold lift at 1.
  pose proof (processors_return_at_most_one_chunk fuel content_bytes
                (file_ext file_name)) as Hone.
  destruct (if String.eqb (file_ext file_name) ".pdf" then _ else _)
    as [chunks | e |].
  2: { eexists. eexists. split; [reflexivity |]. now left. }
  2: { eexists. eexists. split; [reflexivity |]. reflexivity. }
  specialize (Hone chunks eq_refl).
  destruct chunks as [| chunk_data chunks].
  { eexists. eexists. split; [reflexivity |]. split; reflexivity. }
  unfold then_ at 1. unfold lift at 1, call at 1.
  destruct search_engine as [[] | e].
  2: { eexists. eexists. split; [reflexivity |]. now left. }
  unfold then_ at 1.
  match goal with
  | |- context [index_chunks _ _ _ _ _ _ _ ?cs ?n ?c] =>
      destruct (index_chunks_run cs n c)
        as (added & st & -> & Hpending & Hcount & Hnohttp)
  end.
  destruct st as [indexed_count | s d | e |].
  - specialize (Hcount indexed_count eq_refl). cbn [List.length] in *.
    unfold then_ at 1. unfold db at 1.
    unfold then_ at 1. unfold db at 1.
    destruct (database _ DbCommit) as [[] | e] eqn:Ecommit.
    + eexists. eexists. split; [reflexivity |]. cbn [ret].
      split; [| cbn; repeat split; try reflexivity; lia].
      eexists. split; [reflexivity |]. split; [| exact Ecommit].
      rewrite forallb_app. cbn [app forallb pending andb].
      rewrite Hpending. reflexivity.
    + eexists. eexists. split; [reflexivity |]. cbv beta iota.
      right. eexists. split; [reflexivity |]. split; [| exact Ecommit].
      rewrite forallb_app. cbn [app forallb pending andb].
      rewrite Hpending. reflexivity.
  - now elim (Hnohttp s d).
  - eexists. eexists. split; [reflexivity |]. cbv beta iota.
    left. cbn [app forallb pending andb]. exact Hpending.
  - eexists. eexists. split; [reflexivity |]. cbn [app forallb pending].
    exact Hpending.
Qed.

(** X27 ([upload_document], the calls on the session): the commit is
    called at most once, after calls that neither commit nor roll back.
    An upload is answered with a response only after the commit
    returned, and the commit is then the last call.  A refusal with
    status 400 neither commits nor rolls back.  Every other failure ends
    with the one rollback, before which the commit was either not called
    or had raised, and is answered with status 500 when the rollback
    returned and with the rollback's own exception when it raised; no
    other status is ever answered.  (Reading [document.id] and building
    the response after the commit raise nothing in this embedding.) *)
Theorem upload_commits_only_on_success (fuel : nat) :
  exists calls result,
    upload_document chunk_size chunk_overlap decode PDF_AVAILABLE PdfReader
      file_name file_content_type file_read database new_document_id
      new_chunk_id search_engine embedding_model embeddings_create
      documents_upsert fuel
    = (calls, result)
    /\ match result with
       | Response r =>
           exists before,
             calls = (before ++ [DbCommit])%list
             /\ forallb pending before = true
             /\ database before DbCommit = Ok tt
       | HTTPException status _ =>
           (status = 400 /\ forallb pending calls = true)
           \/ (status = 500
               /\ exists before,
                   calls = (before ++ [DbRollback])%list
                   /\ database before DbRollback = Ok tt
                   /\ (forallb pending before = true
                       \/ exists attempted e,
                           before = (attempted ++ [DbCommit])%list
                           /\ forallb pending attempted = true
                           /\ database attempted DbCommit = Fails e))
       | Unhandled e' =>
           exists before,
             calls = (before ++ [DbRollback])%list
             /\ database before DbRollback = Fails e'
             /\ (forallb pending before = true
                 \/ exists attempted e,
                     before = (attempted ++ [DbCommit])%list
                     /\ forallb pending attempted = true
                     /\ database attempted DbCommit = Fails e)
       | Hangs => forallb pending calls = true
       end.
Proof using Type.
  unfold upload_document.
  destruct (upload_document_try_run fuel) as (calls & st & -> & Hst).
  destruct st as [r | s d | e |].
  - eexists. eexists. split; [reflexivity |]. exact (proj1 Hst).
  - eexists. eexists. split; [reflexivity |]. now left.
  - assert (Hbefore : forallb pending calls = true
                      \/ exists attempted e0,
                          calls = (attempted ++ [DbCommit])%list
                          /\ forallb pending attempted = true
                          /\ database attempted DbCommit = Fails e0).
    { destruct Hst as [Hst | (attempted & Hst)]; [now left | right].
      exists attempted, e. exact Hst. }
    destruct (database calls DbRollback) as [[] | e'] eqn:Eroll;
      eexists; eexists; (split; [reflexivity |]); cbv beta iota;
      [right; split; [reflexivity |] |];
      exists calls; (split; [reflexivity |]); (split; [exact Eroll |]);
      exact Hbefore.
  - eexists. eexists. split; [reflexivity |]. exact Hst.
Qed.

(** X28 ([upload_document]): an upload that is answered with a response
    reports the identifier given to the document, the file name as it
    was sent, and at most one chunk created, the number that its message
    repeats. *)
Theorem upload_reports_at_most_one_chunk (fuel : nat)
        (calls : list DbCall) (r : DocumentUploadResponse) :
  upload_document chunk_size chunk_overlap decode PDF_AVAILABLE PdfReader
    file_name file_content_type file_read database new_document_id
    new_chunk_id search_engine embedding_model embeddings_create
    documents_upsert fuel
  = (calls, Response r) ->
  document_id r = new_document_id
  /\ filename r = file_name
  /\ 0 <= chunks_created r <= 1
  /\ message r
     = "Document uploaded and processed into "
       ++ str_int (chunks_created r) ++ " chunks".
Proof using Type.
  unfold upload_document.
  destruct (upload_document_try_run fuel) as (calls' & st & -> & Hst).
  destruct st as [r' | s d | e |]; try discriminate.
  - intros E. injection E as _ <-. apply Hst.
  - destruct (database calls' DbRollback); discriminate.
Qed.

End Upload.

Lemma unsupported_type_is_rejected_first_witness :
  upload_document 500 50 (fun _ => "") true (fun _ => Ok []) "notes.docx"
    None (Ok []) database_ok "doc-1" (fun _ => "chunk-1") (Ok tt)
    Scenarios.default_embedding_model Scenarios.embed_ok Shapes.upsert_ok 4
  = ([],
     HTTPException 400
       "Unsupported file type. Allowed: .txt, .md, .text, .markdown, .pdf").
Proof.
  exact (unsupported_type_is_rejected_first 500 50 (fun _ => "") true
           (fun _ => Ok []) "notes.docx" None (Ok []) database_ok "doc-1"
           (fun _ => "chunk-1") (Ok tt) Scenarios.default_embedding_model
           Scenarios.embed_ok Shapes.upsert_ok 4 eq_refl).
Defined.

Lemma long_text_upload_is_refused_witness :
  upload_document 500 50 (fun _ => Scenarios.twelve_sentences) true
    (fun _ => Ok []) "long.TXT" (Some "text/plain") (Ok []) database_ok
    "doc-1" (fun _ => "chunk-1") (Ok tt) Scenarios.default_embedding_model
    Scenarios.embed_ok Shapes.upsert_ok 4
  = ([DbAddDocument "long.TXT" "text/plain" 0; DbFlush],
     HTTPException 400 "Failed to process document").
Proof.
  exact (long_text_upload_is_refused 500 50
           (fun _ => Scenarios.twelve_sentences) true (fun _ => Ok [])
           "long.TXT" (Some "text/plain") (Ok []) database_ok "doc-1"
           (fun _ => "chunk-1") (Ok tt) Scenarios.default_embedding_model
           Scenarios.embed_ok Shapes.upsert_ok 3 [] eq_refl eq_refl
           (fun _ _ _ => eq_refl) ltac:(lia)
           ltac:(vm_compute; reflexivity)).
Defined.

Lemma failed_pdf_upload_is_rolled_back_witness :
  upload_document 500 50 (fun _ => "") true
    (fun _ => Fails (ValueError "EOF marker not found")) "test.pdf"
    (Some "application/pdf") (Ok []) database_ok "doc-1"
    (fun _ => "chunk-1") (Ok tt) Scenarios.default_embedding_model
    Scenarios.embed_ok Shapes.upsert_ok 4
  = ([DbAddDocument "test.pdf" "application/pdf" 0; DbFlush; DbRollback],
     HTTPException 500
       ("Upload failed: "
        ++ "Failed to process PDF: " ++ "EOF marker not found")).
Proof.
  exact (failed_pdf_upload_is_rolled_back 500 50 (fun _ => "") true
           (fun _ => Fails (ValueError "EOF marker not found")) "test.pdf"
           (Some "application/pdf") (Ok []) database_ok "doc-1"
           (fun _ => "chunk-1") (Ok tt) Scenarios.default_embedding_model
           Scenarios.embed_ok Shapes.upsert_ok 4 [] _ eq_refl eq_refl
           (fun _ _ => eq_refl) eq_refl).
Defined.

Lemma upload_reports_at_most_one_chunk_witness :
  exists calls r,
    upload_document 500 50 (fun _ => "This is a test document.") true
      (fun _ => Ok []) "test.txt" None (Ok []) database_ok "doc-1"
      (fun _ => "chunk-1") (Ok tt) Scenarios.default_embedding_model
      Scenarios.embed_ok Shapes.upsert_ok 4
    = (calls, Response r)
    /\ chunks_created r = 1
    /\ (document_id r = "doc-1"
        /\ filename r = "test.txt"
        /\ 0 <= chunks_created r <= 1
        /\ message r
           = "Document uploaded and processed into "
             ++ str_int (chunks_created r) ++ " chunks").
Proof.
  eexists. eexists. split; [reflexivity |]. split; [reflexivity |].
  exact (upload_reports_at_most_one_chunk 500 50
           (fun _ => "This is a test document.") true (fun _ => Ok [])
           "test.txt" None (Ok []) database_ok "doc-1"
           (fun _ => "chunk-1") (Ok tt) Scenarios.default_embedding_model
           Scenarios.embed_ok Shapes.upsert_ok 4 _ _ eq_refl).
Defined.

End UploadExtras.
